(** * recursearch: recursive string search through directories and archives

    A shallow embedding of [recursearch.py].  The program walks a directory,
    tests every file name against the search string, probes every file for
    an archive signature, unpacks archives into scratch directories and
    searches them recursively, and otherwise looks for the string in the
    raw bytes (under three encodings) and in the decoded text of the file.

    The archive libraries, the codec tables and the operating system are
    not part of the program: what they answer for a given file is part of
    the description of that file (type [file] below), the codec is a
    parameter of the development, and so are the naming of scratch
    directories and what the standard output of the process can encode. *)

From Stdlib Require Import List ZArith Lia Bool.
From Stdlib Require Import Strings.String Strings.Ascii Strings.Byte.
Import ListNotations.

Set Implicit Arguments.
Set Warnings "-register-all".

(** ** Python strings, bytes and paths *)

(** A Python [str] is a sequence of Unicode code points. *)
Definition pystr := list N.

(** A Python [bytes] object. *)
Definition bytes := list byte.

(** ASCII literals, for the concrete directory trees used further down. *)
Definition py (s : string) : pystr := map Byte.to_N (list_byte_of_string s).
Definition b (s : string) : bytes := list_byte_of_string s.

Section Contains.
Variable A : Type.
Variable eqb : A -> A -> bool.

Fixpoint startswith (s t : list A) : bool :=
  match s, t with
  | [], _ => true
  | _ :: _, [] => false
  | x :: s', y :: t' => eqb x y && startswith s' t'
  end.

(** Python's [s in t] on [str] and on [bytes]: [s] occurs in [t] as a
    contiguous run. *)
Fixpoint contains (s t : list A) : bool :=
  startswith s t ||
  match t with
  | [] => false
  | _ :: t' => contains s t'
  end.
End Contains.

(** The reading of "substring" that [contains] decides. *)
Definition Substring (A : Type) (s t : list A) : Prop :=
  exists l r, t = l ++ s ++ r.

Definition str_in (s t : pystr) : bool := contains N.eqb s t.
Definition bytes_in (s t : bytes) : bool := contains Byte.eqb s t.

(** [pathlib.Path], in normal form: the list of its segments.  An absolute
    path starts with the empty segment, so that [str] gives the leading
    slash. *)
Definition Path := list pystr.

Definition slash : N := 47.

Fixpoint join_segments (p : Path) : pystr :=
  match p with
  | [] => []
  | [seg] => seg
  | seg :: rest => seg ++ slash :: join_segments rest
  end.

(** [str(path)]: the path with no segments is ["."], the root is ["/"]. *)
Definition str (p : Path) : pystr :=
  match p with
  | [] => [46%N]
  | [[]] => [slash]
  | _ => join_segments p
  end.

(** [path / name] *)
Definition joinpath (p : Path) (name : pystr) : Path := p ++ [name].
Infix "//" := joinpath (at level 40, left associativity).

(** ** Exceptions and outcomes of calls *)

Inductive exn : Type :=
| EOFError
| TarReadError                          (* tarfile.ReadError *)
| BadZipFile                            (* zipfile.BadZipFile *)
| UnsupportedCompressionMethodError     (* py7zr *)
| Bad7zFile                             (* py7zr *)
| BadRarFile                            (* rarfile *)
| UnicodeDecodeError
| UnicodeEncodeError
| PermissionError                       (* an OSError *)
| SystemExit.                           (* sys.exit(1) *)

Inductive outcome (A : Type) : Type :=
| Ok (a : A)
| Raise (e : exn).
Arguments Raise {A} e.

(** ** The directory tree, with what the libraries answer on each file *)

Inductive archive_format : Type := Tar | Zip | SevenZip | Rar.

(** BINARY_TEXT_ENCODINGS *)
Inductive encoding : Type := UTF_8 | EUC_JP | Shift_JIS.

Definition BINARY_TEXT_ENCODINGS : list encoding := [UTF_8; EUC_JP; Shift_JIS].

(** A directory lists its files and its subdirectories in the order in
    which [os.walk] enumerates them.  A file carries its name and the
    outcome of every library call the program can make on it:
    the four signature probes, the [extractall] of the handler the file is
    routed to (the contents of the scratch directory afterwards, or the
    exception), [open(path, "rb").read()] and [open(path, "r").read()]. *)
Inductive dir : Type :=
| Dir (files : list file) (subdirs : list (pystr * dir))
with file : Type :=
| File (name : pystr)
       (is_tarfile is_zipfile is_7zfile is_rarfile : outcome bool)
       (extractall : outcome dir)
       (read_bytes : outcome bytes)
       (read_text : outcome pystr).

Definition files (d : dir) : list file := let 'Dir fs _ := d in fs.
Definition subdirs (d : dir) : list (pystr * dir) := let 'Dir _ ds := d in ds.

Definition name (f : file) : pystr :=
  let 'File n _ _ _ _ _ _ _ := f in n.
Definition is_tarfile (f : file) : outcome bool :=
  let 'File _ t _ _ _ _ _ _ := f in t.
Definition is_zipfile (f : file) : outcome bool :=
  let 'File _ _ z _ _ _ _ _ := f in z.
Definition is_7zfile (f : file) : outcome bool :=
  let 'File _ _ _ s _ _ _ _ := f in s.
Definition is_rarfile (f : file) : outcome bool :=
  let 'File _ _ _ _ r _ _ _ := f in r.
Definition extractall (f : file) : outcome dir :=
  let 'File _ _ _ _ _ x _ _ := f in x.
Definition read_bytes (f : file) : outcome bytes :=
  let 'File _ _ _ _ _ _ d _ := f in d.
Definition read_text (f : file) : outcome pystr :=
  let 'File _ _ _ _ _ _ _ t := f in t.

(** ** Output, calls and the global state *)

Inductive message : Type :=
| Entering (semantic_path : Path)
| Extracting (fmt : archive_format) (path : Path)
| Failed_to_extract (fmt : archive_format) (path : Path)
| Found_in_filename (string : pystr) (path : Path)
| Found_with_encoding (string : pystr) (path : Path) (enc : encoding)
| Found_in (string : pystr) (path : Path).

Inductive colour : Type := Plain | YELLOW | RED | GREEN.

(** One printed line: colour, [" " * INDENT_LEVEL], message. *)
Record line : Type := Line { tint : colour; indent : Z; text : message }.

Definition format_name (fmt : archive_format) : pystr :=
  match fmt with
  | Tar => py "tar"
  | Zip => py "zip"
  | SevenZip => py "7z"
  | Rar => py "rar"
  end.

Definition encoding_name (enc : encoding) : pystr :=
  match enc with
  | UTF_8 => py "UTF-8"
  | EUC_JP => py "EUC-JP"
  | Shift_JIS => py "Shift-JIS"
  end.

(** The text that each message stands for. *)
Definition render (msg : message) : pystr :=
  match msg with
  | Entering semantic_path => py "Entering " ++ str semantic_path
  | Extracting fmt path =>
      py "Extracting " ++ format_name fmt ++ py " " ++ str path
  | Failed_to_extract fmt path =>
      py "Failed to extract " ++ format_name fmt ++ py " " ++ str path
  | Found_in_filename string path =>
      py "Found " ++ string ++ py " in filename: " ++ str path
  | Found_with_encoding string path enc =>
      py "Found " ++ string ++ py " in " ++ str path ++
      py " with encoding " ++ encoding_name enc
  | Found_in string path => py "Found " ++ string ++ py " in " ++ str path
  end.

(** colorama's [Fore.YELLOW], [Fore.RED] and [Fore.GREEN]. *)
Definition Fore (c : colour) : pystr :=
  match c with
  | Plain => []
  | YELLOW => [27; 91; 51; 51; 109]%N
  | RED => [27; 91; 51; 49; 109]%N
  | GREEN => [27; 91; 51; 50; 109]%N
  end.

(** The characters of a printed line: [Fore.X + " " * INDENT_LEVEL + msg]. *)
Definition render_line (l : line) : pystr :=
  Fore (tint l) ++ repeat 32%N (Z.to_nat (indent l)) ++ render (text l).

(** The calls made to the libraries and to the operating system, and the
    files that the walk hands to the loop.  This is a ghost record: the
    program does not keep it, it is what an observer of the process would
    see. *)
Inductive call : Type :=
| Listed (root : Path) (file : pystr)   (* os.walk gave [file] in [root] *)
| Probe (fmt : archive_format) (path : Path)
| Extractall (fmt : archive_format) (path tempdir : Path)
| Open_rb (path : Path)
| Encode (enc : encoding)
| Open_r (path : Path).

Record state : Type := State {
  INDENT_LEVEL : Z;
  found_paths : list pystr;
  stdout : list line;
  tempdirs : nat;               (* scratch directories created so far *)
  calls : list call
}.

Definition initial : state := State 0 [] [] 0 [].

(** ** Computations: state passing with exceptions *)

Definition M (A : Type) : Type := state -> state * outcome A.

Definition ret (A : Type) (a : A) : M A := fun st => (st, Ok a).

Definition bind (A B : Type) (m : M A) (k : A -> M B) : M B :=
  fun st =>
    match m st with
    | (st', Ok a) => k a st'
    | (st', Raise e) => (st', Raise e)
    end.

Declare Scope py_scope.
Delimit Scope py_scope with py.
Notation "x <- m ;; k" := (bind m (fun x => k))
  (at level 61, m at next level, right associativity) : py_scope.
Notation "m ;; k" := (bind m (fun _ => k))
  (at level 61, right associativity) : py_scope.
Open Scope py_scope.

Section Recursearch.

(** What the standard output of the process can encode: [print(text)]
    writes the text when it can and raises [UnicodeEncodeError] when it
    cannot (a strict UTF-8 output refuses the lone surrogates that stand
    for undecodable bytes of a file name). *)
Variable stdout_encodes : pystr -> bool.

Definition print (l : line) : M unit :=
  fun st =>
    if stdout_encodes (render_line l) then
      (State (INDENT_LEVEL st) (found_paths st) (stdout st ++ [l])
             (tempdirs st) (calls st), Ok tt)
    else (st, Raise UnicodeEncodeError).

(** A library call: noted, then answered by the oracle. *)
Definition lib (A : Type) (c : call) (answer : outcome A) : M A :=
  fun st => (State (INDENT_LEVEL st) (found_paths st) (stdout st)
                   (tempdirs st) (calls st ++ [c]), answer).

(** [for x in xs: body x] *)
Definition for_each (A : Type) (body : A -> M unit) : list A -> M unit :=
  fix loop (xs : list A) : M unit :=
    match xs with
    | [] => ret tt
    | x :: rest => body x ;; loop rest
    end.

Definition LOG_LEVEL : Z := 1.

Definition info (msg : message) : M unit :=
  fun st =>
    if (LOG_LEVEL <=? 1)%Z then print (Line Plain (INDENT_LEVEL st) msg) st
    else (st, Ok tt).

Definition warn (msg : message) : M unit :=
  fun st => print (Line YELLOW (INDENT_LEVEL st) msg) st.

(** [error]: prints, then leaves the process through [sys.exit(1)].
    Nothing in the program calls it. *)
Definition error (msg : message) : M unit :=
  (fun st => print (Line RED (INDENT_LEVEL st) msg) st) ;;
  (fun st => (st, Raise SystemExit)).

Definition success (msg : message) : M unit :=
  fun st => print (Line GREEN (INDENT_LEVEL st) msg) st.

(** [found_paths.append(p)] *)
Definition found_paths_append (p : pystr) : M unit :=
  fun st => (State (INDENT_LEVEL st) (found_paths st ++ [p]) (stdout st)
                   (tempdirs st) (calls st), Ok tt).

(** [INDENT_LEVEL += k] *)
Definition indent_by (k : Z) : M unit :=
  fun st => (State (INDENT_LEVEL st + k) (found_paths st) (stdout st)
                   (tempdirs st) (calls st), Ok tt).

(** ** The program *)

(** [bytes(string, encoding)]: the codec tables are the interpreter's, not
    the program's.  Encoding fails with [UnicodeEncodeError] on a string
    that has a character outside the code. *)
Variable encode : encoding -> pystr -> outcome bytes.

(** The path of the n-th scratch directory that
    [tempfile.TemporaryDirectory()] creates in this run. *)
Variable mkdtemp : nat -> Path.

(** [with tempfile.TemporaryDirectory() as tempdir: body] *)
Definition with_TemporaryDirectory (A : Type) (body : Path -> M A) : M A :=
  fun st =>
    body (mkdtemp (tempdirs st))
         (State (INDENT_LEVEL st) (found_paths st) (stdout st)
                (S (tempdirs st)) (calls st)).

Section Handlers.

(** The recursive call of [search] on the tree that an archive unpacked
    to: semantic path, scratch directory, search string, contents. *)
Variable search : Path -> Path -> pystr -> dir -> M unit.

Definition handle_tar (semantic_path path : Path) (string : pystr)
           (f : file) : M unit :=
  info (Extracting Tar path) ;;
  with_TemporaryDirectory (fun tempdir =>
    fun st =>
      match lib (Extractall Tar path tempdir) (extractall f) st with
      | (st', Ok tree) => search semantic_path tempdir string tree st'
      | (st', Raise EOFError) => warn (Failed_to_extract Tar path) st'
      | (st', Raise e) => (st', Raise e)
      end).

Definition handle_zip (semantic_path path : Path) (string : pystr)
           (f : file) : M unit :=
  info (Extracting Zip path) ;;
  with_TemporaryDirectory (fun tempdir =>
    fun st =>
      match lib (Extractall Zip path tempdir) (extractall f) st with
      | (st', Ok tree) => search semantic_path tempdir string tree st'
      | (st', Raise e) => (st', Raise e)
      end).

Definition handle_7z (semantic_path path : Path) (string : pystr)
           (f : file) : M unit :=
  info (Extracting SevenZip path) ;;
  with_TemporaryDirectory (fun tempdir =>
    fun st =>
      match lib (Extractall SevenZip path tempdir) (extractall f) st with
      | (st', Ok tree) => search semantic_path tempdir string tree st'
      | (st', Raise UnsupportedCompressionMethodError) =>
          warn (Failed_to_extract SevenZip path) st'
      | (st', Raise e) => (st', Raise e)
      end).

Definition handle_rar (semantic_path path : Path) (string : pystr)
           (f : file) : M unit :=
  info (Extracting Rar path) ;;
  with_TemporaryDirectory (fun tempdir =>
    fun st =>
      match lib (Extractall Rar path tempdir) (extractall f) st with
      | (st', Ok tree) => search semantic_path tempdir string tree st'
      | (st', Raise BadRarFile) => warn (Failed_to_extract Rar path) st'
      | (st', Raise e) => (st', Raise e)
      end).

(** The loop of [handle_bin] over the encodings still to try. *)
Fixpoint handle_bin_loop (path : Path) (string : pystr) (data : bytes)
         (encodings : list encoding) : M bool :=
  match encodings with
  | [] => ret false
  | enc :: rest =>
      needle <- lib (Encode enc) (encode enc string) ;;
      if bytes_in needle data then
        success (Found_with_encoding string path enc) ;;
        ret true
      else handle_bin_loop path string data rest
  end.

Definition handle_bin (semantic_path path : Path) (string : pystr)
           (f : file) : M bool :=
  data <- lib (Open_rb path) (read_bytes f) ;;
  handle_bin_loop path string data BINARY_TEXT_ENCODINGS.

Definition handle_text (semantic_path path : Path) (string : pystr)
           (f : file) : M bool :=
  fun st =>
    match lib (Open_r path) (read_text f) st with
    | (st', Ok data) =>
        if str_in string data then
          (success (Found_in string path) ;; ret true) st'
        else (st', Ok false)
    | (st', Raise UnicodeDecodeError) => (st', Ok false)
    | (st', Raise e) => (st', Raise e)
    end.

(** The body of the inner loop of [search], for one file of the directory
    [root] that [os.walk] is at. *)
Definition search_file (semantic_path root : Path) (string : pystr)
           (f : file) : M unit :=
  let file_path := root // name f in
  (if str_in string (str file_path) then
     success (Found_in_filename string file_path) ;;
     found_paths_append (str file_path)
   else ret tt) ;;
  indent_by 1 ;;
  (t <- lib (Probe Tar file_path) (is_tarfile f) ;;
   if t then handle_tar (semantic_path // name f) file_path string f
   else
     z <- lib (Probe Zip file_path) (is_zipfile f) ;;
     if z then handle_zip (semantic_path // name f) file_path string f
     else
       s <- lib (Probe SevenZip file_path) (is_7zfile f) ;;
       if s then handle_7z (semantic_path // name f) file_path string f
       else
         r <- lib (Probe Rar file_path) (is_rarfile f) ;;
         if r then handle_rar (semantic_path // name f) file_path string f
         else
           found <- handle_bin (semantic_path // name f) file_path string f ;;
           if negb found then
             handle_text (semantic_path // name f) file_path string f ;;
             ret tt
           else ret tt) ;;
  indent_by (-1).

End Handlers.

(** [for root, dirs, files in os.walk(path): for file in files: ...] on the
    tree found at [path]: the files of the directory first, then each
    subdirectory in turn; the semantic path stays that of the call.  Each
    file that the walk hands to the loop is noted in the record of calls,
    with the directory the walk is at. *)
Fixpoint search_walk (semantic_path root : Path) (string : pystr)
         (tree : dir) {struct tree} : M unit :=
  match tree with
  | Dir files subdirs =>
      for_each
        (fun file =>
           lib (Listed root (name file)) (Ok tt) ;;
           search_file
             (fun sp tempdir s extracted =>
                info (Entering sp) ;; search_walk sp tempdir s extracted)
             semantic_path root string file)
        files ;;
      for_each
        (fun sub : pystr * dir =>
           let (dirname, subtree) := sub in
           search_walk semantic_path (root // dirname) string subtree)
        subdirs
  end.

(** [search(semantic_path, path, string)], where [tree] is what the file
    system has at [path]: [None] when there is no directory there, in
    which case [os.walk] yields nothing. *)
Definition search (semantic_path path : Path) (string : pystr)
           (tree : option dir) : M unit :=
  info (Entering semantic_path) ;;
  match tree with
  | Some d => search_walk semantic_path path string d
  | None => ret tt
  end.

(** The script body after argument parsing: [search(path, path, string)]
    on the file system [fs], from the initial values of the globals.  The
    result is the final state and the exit status of the process: 0 when
    the script runs to its end, 1 when an exception (or [sys.exit(1)])
    leaves it. *)
Definition main (fs : Path -> option dir) (string : pystr) (path : Path)
  : state * Z :=
  match search path path string (fs path) initial with
  | (st, Ok _) => (st, 0%Z)
  | (st, Raise _) => (st, 1%Z)
  end.

End Recursearch.

(** ** A codec fragment and scratch names for concrete runs *)

Definition byte_of (n : N) : byte :=
  match Byte.of_N n with Some x => x | None => x00 end.

(** UTF-8 of one code point; surrogates and values past U+10FFFF have
    none. *)
Definition utf8_char (c : N) : option bytes :=
  if (c <? 128)%N then Some [byte_of c]
  else if (c <? 2048)%N then
    Some [byte_of (192 + c / 64); byte_of (128 + c mod 64)]
  else if ((55296 <=? c) && (c <=? 57343))%N then None
  else if (c <? 65536)%N then
    Some [byte_of (224 + c / 4096); byte_of (128 + (c / 64) mod 64);
          byte_of (128 + c mod 64)]
  else if (c <? 1114112)%N then
    Some [byte_of (240 + c / 262144); byte_of (128 + (c / 4096) mod 64);
          byte_of (128 + (c / 64) mod 64); byte_of (128 + c mod 64)]
  else None.

(** The part of the EUC-JP table that the concrete runs use: ASCII, and
    HIRAGANA LETTER A (U+3042) at A4 A2. *)
Definition euc_jp_char (c : N) : option bytes :=
  if (c <? 128)%N then Some [byte_of c]
  else if (c =? 12354)%N then Some [xa4; xa2]
  else None.

(** The same part of the Shift-JIS table: U+3042 is at 82 A0. *)
Definition shift_jis_char (c : N) : option bytes :=
  if (c <? 128)%N then Some [byte_of c]
  else if (c =? 12354)%N then Some [x82; xa0]
  else None.

Fixpoint encode_with (table : N -> option bytes) (s : pystr)
  : outcome bytes :=
  match s with
  | [] => Ok []
  | c :: rest =>
      match table c, encode_with table rest with
      | Some bs, Ok tail => Ok (bs ++ tail)
      | _, _ => Raise UnicodeEncodeError
      end
  end.

Definition codec (enc : encoding) : pystr -> outcome bytes :=
  match enc with
  | UTF_8 => encode_with utf8_char
  | EUC_JP => encode_with euc_jp_char
  | Shift_JIS => encode_with shift_jis_char
  end.

(** A standard output in strict UTF-8: every string of code points goes
    through but one with a surrogate in it. *)
Definition utf8_stdout (s : pystr) : bool :=
  forallb (fun c => negb ((55296 <=? c) && (c <=? 57343))%N &&
                    (c <? 1114112)%N) s.

(** A standard output that refuses nothing (opened with an error handler
    such as [backslashreplace]). *)
Definition lenient_stdout (s : pystr) : bool := true.

(** Scratch directories [/tmp/tmp0], [/tmp/tmp1], ... *)
Definition scratch (n : nat) : Path :=
  [[]; py "tmp"; py "tmp" ++ [48 + N.of_nat n]%N].

(** Shorthands for files in concrete trees. *)
Definition plain_file (name : pystr) (data : outcome bytes)
           (text : outcome pystr) : file :=
  File name (Ok false) (Ok false) (Ok false) (Ok false)
       (Raise TarReadError) data text.

Definition archive_file (name : pystr) (fmt : archive_format)
           (unpacked : outcome dir) : file :=
  File name
       (Ok match fmt with Tar => true | _ => false end)
       (Ok match fmt with Zip => true | _ => false end)
       (Ok match fmt with SevenZip => true | _ => false end)
       (Ok match fmt with Rar => true | _ => false end)
       unpacked (Ok []) (Raise UnicodeDecodeError).

(** ** What a run adds to the output, to the list and to the calls *)

(** The paths of the filename matches among printed lines, in order. *)
Definition filename_matches (out : list line) : list Path :=
  flat_map (fun l => match text l with
                     | Found_in_filename _ p => [p]
                     | _ => []
                     end) out.

(** The content matches (binary or text) among printed lines. *)
Definition content_matches (out : list line) : list line :=
  filter (fun l => match text l with
                   | Found_with_encoding _ _ _ | Found_in _ _ => true
                   | _ => false
                   end) out.

(** The files that the loop of [search] probed, by their real paths, in
    order: each file is probed for a tar signature once (line 120),
    right after the test of its name, unless printing the filename match
    raised. *)
Definition encountered (cl : list call) : list Path :=
  flat_map (fun c => match c with Probe Tar p => [p] | _ => [] end) cl.

(** The files that the walk handed to the loop of [search], by their real
    paths (the directory [os.walk] is at, joined with the file name), in
    order. *)
Definition came_to (cl : list call) : list Path :=
  flat_map (fun c => match c with
                     | Listed root file => [root // file]
                     | _ => []
                     end) cl.

(** The standard output can print [msg], at any indentation and in any
    colour. *)
Definition printable (stdout_encodes : pystr -> bool) (msg : message)
  : Prop :=
  forall c i, stdout_encodes (render_line (Line c i msg)) = true.

(** The messages that the program can print about the file at [p] when
    searching for [string]. *)
Definition messages_about (string : pystr) (p : Path) : list message :=
  [Found_in_filename string p; Found_in string p;
   Found_with_encoding string p UTF_8; Found_with_encoding string p EUC_JP;
   Found_with_encoding string p Shift_JIS;
   Extracting Tar p; Extracting Zip p; Extracting SevenZip p;
   Extracting Rar p;
   Failed_to_extract Tar p; Failed_to_extract Zip p;
   Failed_to_extract SevenZip p; Failed_to_extract Rar p].

(** The standard output can print whatever the program says about the
    file at [p]. *)
Definition speakable (stdout_encodes : pystr -> bool) (string : pystr)
           (p : Path) : Prop :=
  forall msg, In msg (messages_about string p) ->
              printable stdout_encodes msg.

(** What a computation keeps, from [st] to [st'], of the test of names:
    the files it came to whose real path has the search string in it are,
    in order and one for one, the filename matches it printed.  When the
    computation did not return, the last of those files may be without
    its line, and then that line is one the standard output cannot
    encode. *)
Definition matched (stdout_encodes : pystr -> bool) (string : pystr)
           (st st' : state) (ok : bool) : Prop :=
  exists out cl pending,
    stdout st' = stdout st ++ out /\
    calls st' = calls st ++ cl /\
    filter (fun p => str_in string (str p)) (came_to cl) =
      filename_matches out ++ pending /\
    (ok = true -> pending = []) /\
    (pending = [] \/
     exists p i,
       pending = [p] /\
       stdout_encodes
         (render_line (Line GREEN i (Found_in_filename string p))) = false).

(** [st'] is [st] with [out] printed, [fp] appended to [found_paths] and
    the calls [cl] made. *)
Definition extends (st st' : state) (out : list line) (fp : list pystr)
           (cl : list call) : Prop :=
  stdout st' = stdout st ++ out /\
  found_paths st' = found_paths st ++ fp /\
  calls st' = calls st ++ cl.

(** Whatever the state it starts in and however it ends, [m] only adds to
    the three lists, and what it adds satisfies [Q]. *)
Definition grows (Q : list line -> list pystr -> list call -> Prop)
           (A : Type) (m : M A) : Prop :=
  forall st, exists out fp cl,
    extends st (fst (m st)) out fp cl /\ Q out fp cl.

(** Lines other than filename matches and error lines. *)
Definition routine (l : line) : bool :=
  match tint l, text l with
  | Plain, Entering _ | Plain, Extracting _ _
  | YELLOW, Failed_to_extract _ _
  | GREEN, Found_with_encoding _ _ _ | GREEN, Found_in _ _ => true
  | _, _ => false
  end.

(** Calls other than the tar probe that opens the handling of a file. *)
Definition inner_call (c : call) : bool :=
  match c with
  | Probe Tar _ => false
  | _ => true
  end.

(** What the test of the name of a file at [p] prints and appends. *)
Definition name_lines (string : pystr) (i : Z) (p : Path) : list line :=
  if str_in string (str p)
  then [Line GREEN i (Found_in_filename string p)] else [].

Definition name_paths (string : pystr) (p : Path) : list pystr :=
  if str_in string (str p) then [str p] else [].

(** What a run adds, read together: the paths appended to [found_paths]
    are those of the filename matches printed, in the same order; the
    filename matches are, in order, the files the run probed whose real
    path has the search string in it; and no error line is printed. *)
Definition coherent (string : pystr) (out : list line) (fp : list pystr)
           (cl : list call) : Prop :=
  fp = map str (filename_matches out) /\
  filename_matches out =
    filter (fun p => str_in string (str p)) (encountered cl) /\
  Forall (fun l => tint l <> RED) out.

(** ** Concrete files and trees *)

Definition root : Path := [py "root"].

Definition a_txt : file :=
  plain_file (py "a.txt") (Ok (b "hello")) (Ok (py "hello")).

Definition secret_zip : file :=
  archive_file (py "secret.zip") Zip (Ok (Dir [a_txt] [])).

Definition notes_txt : file :=
  plain_file (py "notes.txt") (Ok (b "the password is xyz42"))
             (Ok (py "the password is xyz42")).

(** A file with the signature of a zip archive whose central directory
    is cut short: [zipfile.ZipFile] raises [BadZipFile]. *)
Definition bad_zip : file :=
  archive_file (py "bad.zip") Zip (Raise BadZipFile).

(** A 7z archive packed with a method that py7zr does not have. *)
Definition bad_7z : file :=
  archive_file (py "bad.7z") SevenZip (Raise UnsupportedCompressionMethodError).

(** Two plain files, the second with a name that is no valid UTF-8 on
    disk: Python reads the byte FF of the name as the lone surrogate
    U+DCFF. *)
Definition z_txt : file :=
  plain_file (py "z.txt") (Ok (b "hello")) (Ok (py "hello")).

Definition odd_txt : file :=
  plain_file (56575%N :: py ".txt") (Ok (b "hello")) (Ok (py "hello")).

(** A file that the process may not open: [tarfile.is_tarfile] lets the
    [PermissionError] through, and so do the two [open] calls. *)
Definition locked : file :=
  File (py "locked") (Raise PermissionError) (Ok false) (Ok false) (Ok false)
       (Raise PermissionError) (Raise PermissionError) (Raise PermissionError).


(** ** The handlers of plain files, read as functions of the file *)

Definition printed (out : list line) (st : state) : state :=
  State (INDENT_LEVEL st) (found_paths st) (stdout st ++ out)
        (tempdirs st) (calls st).

Definition called (cl : list call) (st : state) : state :=
  State (INDENT_LEVEL st) (found_paths st) (stdout st)
        (tempdirs st) (calls st ++ cl).

(** What the loop of [handle_bin] comes to on [data]: the encoding it
    reports, none, or the exception of the first [bytes(string, encoding)]
    that fails before a match. *)
Fixpoint scan_encodings (encode : encoding -> pystr -> outcome bytes)
         (string : pystr) (data : bytes) (encodings : list encoding)
  : outcome (option encoding) :=
  match encodings with
  | [] => Ok None
  | enc :: rest =>
      match encode enc string with
      | Raise e => Raise e
      | Ok needle =>
          if bytes_in needle data then Ok (Some enc)
          else scan_encodings encode string data rest
      end
  end.

(** The encodings whose [bytes(string, encoding)] the loop evaluates. *)
Fixpoint tried_encodings (encode : encoding -> pystr -> outcome bytes)
         (string : pystr) (data : bytes) (encodings : list encoding)
  : list encoding :=
  match encodings with
  | [] => []
  | enc :: rest =>
      enc :: match encode enc string with
             | Raise _ => []
             | Ok needle =>
                 if bytes_in needle data then []
                 else tried_encodings encode string data rest
             end
  end.

Definition bin_lines (string : pystr) (path : Path) (i : Z)
           (r : outcome (option encoding)) : list line :=
  match r with
  | Ok (Some enc) => [Line GREEN i (Found_with_encoding string path enc)]
  | _ => []
  end.

Definition bin_result (r : outcome (option encoding)) : outcome bool :=
  match r with
  | Ok (Some _) => Ok true
  | Ok None => Ok false
  | Raise e => Raise e
  end.

(** [handle_bin] returns a match and reports it with encoding [enc]. *)
Definition returns_match (r : state * outcome bool) (st : state)
           (string : pystr) (path : Path) (enc : encoding) : Prop :=
  snd r = Ok true /\
  stdout (fst r) =
    stdout st ++
    [Line GREEN (INDENT_LEVEL st) (Found_with_encoding string path enc)].

(** [encode(S, E)] is defined and is a substring of [B]. *)
Definition matches_under (encode : encoding -> pystr -> outcome bytes)
           (enc : encoding) (S : pystr) (B : bytes) : Prop :=
  exists needle, encode enc S = Ok needle /\ Substring needle B.

Definition encodable (encode : encoding -> pystr -> outcome bytes)
           (enc : encoding) (S : pystr) : Prop :=
  exists needle, encode enc S = Ok needle.

(** The place of an encoding in BINARY_TEXT_ENCODINGS. *)
Definition priority (enc : encoding) : nat :=
  match enc with
  | UTF_8 => 0
  | EUC_JP => 1
  | Shift_JIS => 2
  end.

(** A file whose bytes are no valid text. *)
Definition blob_bin : file :=
  plain_file (py "blob.bin") (Ok [xff; xfe; x00]) (Raise UnicodeDecodeError).

(** A text file in Shift-JIS: HIRAGANA LETTER A, then "b". *)
Definition sjis_txt : file :=
  plain_file (py "sjis.txt") (Ok [x82; xa0; x62]) (Raise UnicodeDecodeError).


(** What [handle_text] returns and prints, read off the file. *)
Definition text_result (string : pystr) (f : file) : outcome bool :=
  match read_text f with
  | Ok data => Ok (str_in string data)
  | Raise UnicodeDecodeError => Ok false
  | Raise e => Raise e
  end.

Definition text_lines (string : pystr) (path : Path) (i : Z) (f : file)
  : list line :=
  match read_text f with
  | Ok data =>
      if str_in string data then [Line GREEN i (Found_in string path)] else []
  | Raise _ => []
  end.

(** What [handle_bin] comes to on a file, and the calls it makes. *)
Definition bin_outcome (encode : encoding -> pystr -> outcome bytes)
           (string : pystr) (f : file) : outcome (option encoding) :=
  match read_bytes f with
  | Ok data => scan_encodings encode string data BINARY_TEXT_ENCODINGS
  | Raise e => Raise e
  end.

Definition bin_calls (encode : encoding -> pystr -> outcome bytes)
           (string : pystr) (path : Path) (f : file) : list call :=
  Open_rb path ::
  match read_bytes f with
  | Ok data =>
      map Encode (tried_encodings encode string data BINARY_TEXT_ENCODINGS)
  | Raise _ => []
  end.

(** The four signature probes on the file at [p], in the order of the
    [if]/[elif] chain. *)
Definition all_probes (p : Path) : list call :=
  [Probe Tar p; Probe Zip p; Probe SevenZip p; Probe Rar p].


(** ** Classification, as the specification words it *)

(** The format predicates in their fixed order; [Other], the fallback, is
    [None] below. *)
Definition CLASSIFIERS : list archive_format := [Tar; Zip; SevenZip; Rar].

Definition probe_of (fmt : archive_format) (f : file) : outcome bool :=
  match fmt with
  | Tar => is_tarfile f
  | Zip => is_zipfile f
  | SevenZip => is_7zfile f
  | Rar => is_rarfile f
  end.

(** Try the predicates of [order] one after the other: the first that
    holds is the classification. *)
Fixpoint classify_in (order : list archive_format) (path : Path) (f : file)
  : M (option archive_format) :=
  match order with
  | [] => ret None
  | fmt :: rest =>
      t <- lib (Probe fmt path) (probe_of fmt f) ;;
      if t then ret (Some fmt) else classify_in rest path f
  end.

Definition classify_spec : Path -> file -> M (option archive_format) :=
  classify_in CLASSIFIERS.

(** What the file is routed to, given its classification. *)
Definition route_spec (stdout_encodes : pystr -> bool)
           (encode : encoding -> pystr -> outcome bytes)
           (mkdtemp : nat -> Path)
           (search : Path -> Path -> pystr -> dir -> M unit)
           (c : option archive_format)
           (semantic_path path : Path) (string : pystr) (f : file) : M unit :=
  match c with
  | Some Tar =>
      handle_tar stdout_encodes mkdtemp search semantic_path path string f
  | Some Zip =>
      handle_zip stdout_encodes mkdtemp search semantic_path path string f
  | Some SevenZip =>
      handle_7z stdout_encodes mkdtemp search semantic_path path string f
  | Some Rar =>
      handle_rar stdout_encodes mkdtemp search semantic_path path string f
  | None =>
      found <- handle_bin stdout_encodes encode semantic_path path string f ;;
      if negb found then
        handle_text stdout_encodes semantic_path path string f ;; ret tt
      else ret tt
  end.


(** ** Indentation, semantic paths and scratch directories over a run *)

Definition is_ok (A : Type) (r : outcome A) : bool :=
  match r with
  | Ok _ => true
  | Raise _ => false
  end.

(** The scratch directories that archives were unpacked into. *)
Definition scratch_dirs (cl : list call) : list Path :=
  flat_map (fun c => match c with
                     | Extractall _ _ tempdir => [tempdir]
                     | _ => []
                     end) cl.

(** The semantic paths of the "Entering" lines. *)
Definition entered (out : list line) : list Path :=
  flat_map (fun l => match text l with
                     | Entering sp => [sp]
                     | _ => []
                     end) out.

(** The paths of the files that the walk lists and the paths handed to
    the libraries and to [open]. *)
Definition touched (cl : list call) : list Path :=
  flat_map (fun c => match c with
                     | Listed root file => [root // file]
                     | Probe _ p | Extractall _ p _ | Open_rb p | Open_r p =>
                         [p]
                     | Encode _ => []
                     end) cl.

(** [q] is [p] or lies below it. *)
Definition below (p q : Path) : Prop := exists rest, q = p ++ rest.

(** What a computation started at semantic path [sp] on the directory
    [root] keeps, from [st] to [st']: the indentation is back where it was
    when the computation returns and never lower when it does not; every
    line it prints is indented at least as far as the level it started at;
    the "Entering" lines are at or below [sp]; the archives it unpacks go,
    in order, into the scratch directories created since [st]; and every
    path it hands out lies under [root] or under one of those scratch
    directories. *)
Definition tidy (mkdtemp : nat -> Path) (sp root : Path)
           (st st' : state) (ok : bool) : Prop :=
  (ok = true -> INDENT_LEVEL st' = INDENT_LEVEL st) /\
  (INDENT_LEVEL st <= INDENT_LEVEL st')%Z /\
  exists out cl n,
    stdout st' = stdout st ++ out /\
    calls st' = calls st ++ cl /\
    tempdirs st' = tempdirs st + n /\
    Forall (fun l => (INDENT_LEVEL st <= indent l)%Z) out /\
    Forall (below sp) (entered out) /\
    scratch_dirs cl = map mkdtemp (seq (tempdirs st) n) /\
    Forall (fun p => below root p \/
                     exists k, tempdirs st <= k < tempdirs st + n /\
                               below (mkdtemp k) p)
           (touched cl).

(** [m] keeps [R] from whatever state it starts in. *)
Definition keeps (R : state -> state -> bool -> Prop) (A : Type) (m : M A)
  : Prop :=
  forall st, R st (fst (m st)) (is_ok (snd (m st))).


(** A tree with an archive in an archive, and a plain file beside it. *)
Definition inner_tar : file :=
  archive_file (py "inner.tar") Tar (Ok (Dir [notes_txt] [])).

Definition outer_zip : file :=
  archive_file (py "outer.zip") Zip (Ok (Dir [inner_tar] [])).

Definition nested_tree : dir :=
  Dir [outer_zip; a_txt] [(py "sub", Dir [bad_7z] [])].


(** ** Extraction failures, by format *)

(** The exception named in the [except] clause of the handler of each
    format; [handle_zip] has no such clause. *)
Definition caught (fmt : archive_format) : option exn :=
  match fmt with
  | Tar => Some EOFError
  | Zip => None
  | SevenZip => Some UnsupportedCompressionMethodError
  | Rar => Some BadRarFile
  end.

(** The answers of the probes that send a file to the handler of [fmt]. *)
Definition routed_to (fmt : archive_format) (f : file) : Prop :=
  match fmt with
  | Tar => is_tarfile f = Ok true
  | Zip => is_tarfile f = Ok false /\ is_zipfile f = Ok true
  | SevenZip =>
      is_tarfile f = Ok false /\ is_zipfile f = Ok false /\
      is_7zfile f = Ok true
  | Rar =>
      is_tarfile f = Ok false /\ is_zipfile f = Ok false /\
      is_7zfile f = Ok false /\ is_rarfile f = Ok true
  end.

(** The probes made on the way to the handler of [fmt]. *)
Definition probes_through (fmt : archive_format) (p : Path) : list call :=
  match fmt with
  | Tar => [Probe Tar p]
  | Zip => [Probe Tar p; Probe Zip p]
  | SevenZip => [Probe Tar p; Probe Zip p; Probe SevenZip p]
  | Rar => all_probes p
  end.

(** A tar archive that [tarfile] rejects with [ReadError]. *)
Definition bad_tar : file :=
  archive_file (py "bad.tar") Tar (Raise TarReadError).


(** ** The plain walk of a directory *)

(** The files under [root] in the order of [os.walk]: the files of a
    directory, then each subdirectory in turn; archives are not opened. *)
Fixpoint walk_files (root : Path) (tree : dir) : list (Path * file) :=
  match tree with
  | Dir fs ds =>
      map (fun f => (root // name f, f)) fs ++
      flat_map (fun sub : pystr * dir =>
                  let (dirname, subtree) := sub in
                  walk_files (root // dirname) subtree) ds
  end.

(** A file, at the path [p], with none of the four signatures, on which
    neither content check raises and about which the standard output can
    print every line. *)
Definition quiet (stdout_encodes : pystr -> bool)
           (encode : encoding -> pystr -> outcome bytes)
           (string : pystr) (pf : Path * file) : Prop :=
  let (p, f) := pf in
  is_tarfile f = Ok false /\ is_zipfile f = Ok false /\
  is_7zfile f = Ok false /\ is_rarfile f = Ok false /\
  speakable stdout_encodes string p /\
  (forall sp st,
     is_ok (snd (handle_bin stdout_encodes encode sp p string f st)) =
     true) /\
  (forall sp st,
     is_ok (snd (handle_text stdout_encodes sp p string f st)) = true).

(** [m] returns, and the calls it makes are: no extraction, the files
    [ps] come to in this order, and only paths under [root]. *)
Definition visits (root : Path) (ps : list Path) (m : M unit) : Prop :=
  forall st,
    snd (m st) = Ok tt /\
    exists cl,
      calls (fst (m st)) = calls st ++ cl /\
      came_to cl = ps /\
      scratch_dirs cl = [] /\
      Forall (below root) (touched cl).

(** A directory with no archives in it. *)
Definition plain_tree : dir :=
  Dir [a_txt; blob_bin] [(py "sub", Dir [notes_txt] [])].


(** ** Runs that differ in the semantic path only *)

(** A line with the semantic path of "Entering" left out. *)
Definition forget (l : line) : line :=
  match text l with
  | Entering _ => Line (tint l) (indent l) (Entering [])
  | _ => l
  end.

(** Two states that agree in everything but the semantic paths printed in
    "Entering" lines. *)
Definition same_but_entering (st1 st2 : state) : Prop :=
  INDENT_LEVEL st1 = INDENT_LEVEL st2 /\
  found_paths st1 = found_paths st2 /\
  map forget (stdout st1) = map forget (stdout st2) /\
  tempdirs st1 = tempdirs st2 /\
  calls st1 = calls st2.

(** The standard output prints the "Entering" line of a path below [sp1]
    exactly when it prints that of the same path below [sp2]. *)
Definition enter_alike (stdout_encodes : pystr -> bool) (sp1 sp2 : Path)
  : Prop :=
  forall i rest,
    stdout_encodes (render_line (Line Plain i (Entering (sp1 ++ rest)))) =
    stdout_encodes (render_line (Line Plain i (Entering (sp2 ++ rest)))).

(** Two computations that take such states to such states, with the same
    result. *)
Definition alike (A : Type) (m1 m2 : M A) : Prop :=
  forall st1 st2,
    same_but_entering st1 st2 ->
    same_but_entering (fst (m1 st1)) (fst (m2 st2)) /\
    snd (m1 st1) = snd (m2 st2).


(** * Properties *)

Unset Implicit Arguments.

(** Induction on directory trees, through the trees that archives unpack
    to. *)
Section Tree_induction.
Variable P : dir -> Prop.
Hypothesis step : forall files subdirs,
  Forall (fun f => forall tree, extractall f = Ok tree -> P tree) files ->
  Forall (fun sub => P (snd sub)) subdirs ->
  P (Dir files subdirs).

Lemma dir_tree_ind : forall tree, P tree.
Proof.
  fix IH 1. intros [fs ds]. apply step.
  - induction fs as [|f fs IHfs]; constructor; [|exact IHfs].
    destruct f as [n t z s r x d0 d1]. simpl.
    destruct x as [tree'|e]; intros tree He.
    + injection He as <-. apply IH.
    + discriminate He.
  - induction ds as [|[n d] ds IHds]; constructor; [|exact IHds].
    simpl. apply IH.
Qed.
End Tree_induction.

(** ** Substring tests *)

Lemma startswith_spec (A : Type) (eqb : A -> A -> bool)
      (eqb_eq : forall x y, eqb x y = true <-> x = y) (s t : list A) :
  startswith eqb s t = true <-> exists r, t = s ++ r.
Proof.
  revert t. induction s as [|x s IH]; intros t; simpl.
  - split; [intros _; exists t; reflexivity | reflexivity].
  - destruct t as [|y t].
    + split; [discriminate | intros [r Hr]; discriminate Hr].
    + rewrite andb_true_iff, eqb_eq, IH. split.
      * intros [-> [r ->]]. exists r. reflexivity.
      * intros [r Hr]. injection Hr as -> ->. split; [reflexivity|].
        exists r. reflexivity.
Qed.

Lemma contains_spec (A : Type) (eqb : A -> A -> bool)
      (eqb_eq : forall x y, eqb x y = true <-> x = y) (s t : list A) :
  contains eqb s t = true <-> Substring s t.
Proof.
  unfold Substring. induction t as [|y t IH]; simpl.
  - rewrite orb_false_r, startswith_spec by exact eqb_eq. split.
    + intros [r Hr]. exists [], r. exact Hr.
    + intros [l [r Hr]]. destruct l as [|z l]; [|discriminate Hr].
      exists r. exact Hr.
  - rewrite orb_true_iff, startswith_spec, IH by exact eqb_eq. split.
    + intros [[r Hr] | [l [r Hr]]].
      * exists [], r. exact Hr.
      * exists (y :: l), r. simpl. rewrite Hr. reflexivity.
    + intros [l [r Hr]]. destruct l as [|z l].
      * left. exists r. exact Hr.
      * right. injection Hr as _ Hr. exists l, r. exact Hr.
Qed.

Lemma str_in_spec (s t : pystr) : str_in s t = true <-> Substring s t.
Proof. apply contains_spec. exact N.eqb_eq. Qed.

Lemma byte_eqb_eq (x y : byte) : Byte.eqb x y = true <-> x = y.
Proof.
  split.
  - apply Byte.byte_dec_bl.
  - apply Byte.byte_dec_lb.
Qed.

Lemma bytes_in_spec (s t : bytes) : bytes_in s t = true <-> Substring s t.
Proof. apply contains_spec. exact byte_eqb_eq. Qed.

Lemma contains_nil (A : Type) (eqb : A -> A -> bool) (t : list A) :
  contains eqb [] t = true.
Proof. destruct t; reflexivity. Qed.

(** ** How computations grow the three lists *)

Lemma extends_refl (st : state) : extends st st [] [] [].
Proof. unfold extends. rewrite !app_nil_r. auto. Qed.

Lemma extends_trans (st1 st2 st3 : state) o1 f1 c1 o2 f2 c2 :
  extends st1 st2 o1 f1 c1 -> extends st2 st3 o2 f2 c2 ->
  extends st1 st3 (o1 ++ o2) (f1 ++ f2) (c1 ++ c2).
Proof.
  unfold extends. intros (H1 & H2 & H3) (H4 & H5 & H6).
  rewrite H4, H5, H6, H1, H2, H3, !app_assoc. auto.
Qed.

Section Growth.
Variable Q : list line -> list pystr -> list call -> Prop.
Hypothesis Q_nil : Q [] [] [].
Hypothesis Q_app : forall o1 f1 c1 o2 f2 c2,
  Q o1 f1 c1 -> Q o2 f2 c2 -> Q (o1 ++ o2) (f1 ++ f2) (c1 ++ c2).

Lemma grows_ext (A : Type) (m m' : M A) :
  (forall st, m st = m' st) -> grows Q m' -> grows Q m.
Proof. intros E H st. rewrite E. apply H. Qed.

Lemma grows_ret (A : Type) (a : A) : grows Q (ret a).
Proof.
  intros st. exists [], [], []. split; [apply extends_refl | exact Q_nil].
Qed.

Lemma grows_raise (A : Type) (e : exn) :
  grows Q (fun st => (st, @Raise A e)).
Proof.
  intros st. exists [], [], []. split; [apply extends_refl | exact Q_nil].
Qed.

Lemma grows_bind (A B : Type) (m : M A) (k : A -> M B) :
  grows Q m -> (forall a, grows Q (k a)) -> grows Q (bind m k).
Proof.
  intros Hm Hk st. unfold bind.
  destruct (Hm st) as (o1 & f1 & c1 & E1 & Q1).
  destruct (m st) as [st' [a|e]]; simpl in E1.
  - destruct (Hk a st') as (o2 & f2 & c2 & E2 & Q2).
    exists (o1 ++ o2), (f1 ++ f2), (c1 ++ c2). split.
    + eapply extends_trans; eassumption.
    + apply Q_app; assumption.
  - exists o1, f1, c1. auto.
Qed.

Lemma grows_print stdout_encodes (l : line) :
  Q [l] [] [] -> grows Q (print stdout_encodes l).
Proof.
  intros H st. unfold print.
  destruct (stdout_encodes (render_line l)).
  - exists [l], [], []. split; [|exact H].
    unfold extends. simpl. rewrite !app_nil_r. auto.
  - exists [], [], []. split; [apply extends_refl | exact Q_nil].
Qed.

Lemma grows_lib (A : Type) (c : call) (answer : outcome A) :
  Q [] [] [c] -> grows Q (lib c answer).
Proof.
  intros H st. exists [], [], [c]. split; [|exact H].
  unfold extends. simpl. rewrite !app_nil_r. auto.
Qed.

Lemma grows_indent_by (k : Z) : grows Q (indent_by k).
Proof.
  intros st. exists [], [], []. split; [|exact Q_nil].
  unfold extends. simpl. rewrite !app_nil_r. auto.
Qed.

Lemma grows_info stdout_encodes (msg : message) :
  (forall i, Q [Line Plain i msg] [] []) ->
  grows Q (info stdout_encodes msg).
Proof. intros H st. unfold info. simpl. apply grows_print, H. Qed.

Lemma grows_warn stdout_encodes (msg : message) :
  (forall i, Q [Line YELLOW i msg] [] []) ->
  grows Q (warn stdout_encodes msg).
Proof. intros H st. unfold warn. apply grows_print, H. Qed.

Lemma grows_success stdout_encodes (msg : message) :
  (forall i, Q [Line GREEN i msg] [] []) ->
  grows Q (success stdout_encodes msg).
Proof. intros H st. unfold success. apply grows_print, H. Qed.

Lemma grows_with_TemporaryDirectory (mkdtemp : nat -> Path) (A : Type)
      (body : Path -> M A) :
  (forall tempdir, grows Q (body tempdir)) ->
  grows Q (with_TemporaryDirectory mkdtemp body).
Proof.
  intros H st. unfold with_TemporaryDirectory.
  destruct (H (mkdtemp (tempdirs st))
              (State (INDENT_LEVEL st) (found_paths st) (stdout st)
                     (S (tempdirs st)) (calls st)))
    as (o & f & c & E & HQ).
  exists o, f, c. split; [exact E | exact HQ].
Qed.

Lemma grows_for_each (A : Type) (body : A -> M unit) (xs : list A) :
  Forall (fun x => grows Q (body x)) xs -> grows Q (for_each body xs).
Proof.
  induction 1 as [|x xs Hx _ IH]; simpl.
  - apply grows_ret.
  - apply grows_bind; [exact Hx | intros _; exact IH].
Qed.

End Growth.

(** A property of what is added that holds of the empty addition, is
    kept by concatenation, holds of every routine line and inner call, and
    holds of the block that opens the handling of a file (the name test
    followed by the tar probe), holds of what a whole run adds. *)
Section Search_grows.
Variable stdout_encodes : pystr -> bool.
Variable encode : encoding -> pystr -> outcome bytes.
Variable mkdtemp : nat -> Path.
Variable string : pystr.
Variable Q : list line -> list pystr -> list call -> Prop.
Hypothesis Q_nil : Q [] [] [].
Hypothesis Q_app : forall o1 f1 c1 o2 f2 c2,
  Q o1 f1 c1 -> Q o2 f2 c2 -> Q (o1 ++ o2) (f1 ++ f2) (c1 ++ c2).
Hypothesis Q_line : forall l, routine l = true -> Q [l] [] [].
Hypothesis Q_call : forall c, inner_call c = true -> Q [] [] [c].
Hypothesis Q_file : forall i p,
  Q (name_lines string i p) (name_paths string p) [Probe Tar p].

Create HintDb grow.
#[local] Hint Resolve grows_ret grows_raise grows_indent_by : grow.
#[local] Hint Extern 1 (grows _ (lib _ _)) =>
  (apply grows_lib; apply Q_call; reflexivity)
  : grow.
#[local] Hint Extern 1 (grows _ (info _ _)) =>
  (apply grows_info; [assumption | intros ?; apply Q_line; reflexivity])
  : grow.
#[local] Hint Extern 1 (grows _ (warn _ _)) =>
  (apply grows_warn; [assumption | intros ?; apply Q_line; reflexivity])
  : grow.
#[local] Hint Extern 1 (grows _ (success _ _)) =>
  (apply grows_success; [assumption | intros ?; apply Q_line; reflexivity])
  : grow.
#[local] Hint Extern 2 (grows _ (bind _ _)) =>
  (apply grows_bind; [assumption | | intros ?]) : grow.

Section One_file.
Variable search : Path -> Path -> pystr -> dir -> M unit.
Variable f : file.
Hypothesis search_grows : forall sp tempdir tree,
  extractall f = Ok tree -> grows Q (search sp tempdir string tree).

#[local] Hint Extern 1 (grows _ (search _ _ _ _)) =>
  (apply search_grows; solve [reflexivity | assumption]) : grow.

Ltac extraction_cases fmt sp path :=
  apply grows_bind; [assumption | solve [auto with grow] | intros _];
  apply grows_with_TemporaryDirectory; intros tempdir;
  destruct (extractall f) as [tree|e] eqn:E;
  [ apply grows_ext
      with (m' := lib (Extractall fmt path tempdir) (Ok tt) ;;
                  search sp tempdir string tree);
    [ reflexivity | solve [auto with grow] ]
  | destruct e;
    first
      [ match type of E with
        | _ = Raise ?x =>
            apply grows_ext
              with (m' := lib (Extractall fmt path tempdir) (@Raise unit x))
        end;
        [ reflexivity | solve [auto with grow] ]
      | apply grows_ext
          with (m' := lib (Extractall fmt path tempdir) (Ok tt) ;;
                      warn stdout_encodes (Failed_to_extract fmt path));
        [ reflexivity | solve [auto with grow] ] ] ].

Lemma handle_tar_grows sp path :
  grows Q (handle_tar stdout_encodes mkdtemp search sp path string f).
Proof. unfold handle_tar. extraction_cases Tar sp path. Qed.

Lemma handle_zip_grows sp path :
  grows Q (handle_zip stdout_encodes mkdtemp search sp path string f).
Proof. unfold handle_zip. extraction_cases Zip sp path. Qed.

Lemma handle_7z_grows sp path :
  grows Q (handle_7z stdout_encodes mkdtemp search sp path string f).
Proof. unfold handle_7z. extraction_cases SevenZip sp path. Qed.

Lemma handle_rar_grows sp path :
  grows Q (handle_rar stdout_encodes mkdtemp search sp path string f).
Proof. unfold handle_rar. extraction_cases Rar sp path. Qed.

Lemma handle_bin_loop_grows path data encodings :
  grows Q (handle_bin_loop stdout_encodes encode path string data
                           encodings).
Proof.
  induction encodings as [|enc rest IH]; simpl; [auto with grow|].
  apply grows_bind; [assumption | solve [auto with grow] | intros needle].
  destruct (bytes_in needle data); auto with grow.
Qed.

Lemma handle_bin_grows sp path :
  grows Q (handle_bin stdout_encodes encode sp path string f).
Proof.
  unfold handle_bin.
  apply grows_bind; [assumption | solve [auto with grow] | intros data].
  apply handle_bin_loop_grows.
Qed.

Lemma handle_text_grows sp path :
  grows Q (handle_text stdout_encodes sp path string f).
Proof.
  unfold handle_text. destruct (read_text f) as [data|e].
  - apply grows_ext
      with (m' := lib (Open_r path) (Ok tt) ;;
                  if str_in string data
                  then success stdout_encodes (Found_in string path) ;; ret true
                  else ret false).
    + intros st. unfold bind, lib. destruct (str_in string data); reflexivity.
    + apply grows_bind; [assumption | solve [auto with grow] | intros _].
      destruct (str_in string data); auto with grow.
  - destruct e;
      first
        [ apply grows_ext with (m' := lib (Open_r path) (Ok false));
          [ reflexivity | solve [auto with grow] ]
        | match goal with
          | |- context [ @Raise pystr ?x ] =>
              apply grows_ext with (m' := lib (Open_r path) (@Raise bool x))
          end;
          [ reflexivity | solve [auto with grow] ] ].
Qed.

(** The name test, the indentation and the tar probe, as one block. *)
Lemma name_block_grows root :
  grows Q
    ((if str_in string (str (root // name f)) then
        success stdout_encodes (Found_in_filename string (root // name f)) ;;
        found_paths_append (str (root // name f))
      else ret tt) ;;
     indent_by 1 ;;
     lib (Probe Tar (root // name f)) (is_tarfile f)).
Proof.
  intros st.
  pose proof (Q_file (INDENT_LEVEL st) (root // name f)) as HQ.
  unfold name_lines, name_paths in HQ.
  unfold bind, success, print, found_paths_append, indent_by, lib, ret.
  destruct (str_in string (str (root // name f)));
    [destruct (stdout_encodes _)|].
  - eexists _, _, _. split; [|exact HQ].
    unfold extends. simpl. auto.
  - exists [], [], []. split; [apply extends_refl | exact Q_nil].
  - eexists _, _, _. split; [|exact HQ].
    unfold extends. simpl. rewrite ?app_nil_r. auto.
Qed.

Lemma regroup (A B C D E : Type) (m1 : M A) (m2 : M B) (m3 : M C)
      (k : C -> M D) (g : D -> M E) (st : state) :
  (m1 ;; m2 ;; (bind (bind m3 k) g)) st =
  bind (m1 ;; m2 ;; m3) (fun t => bind (k t) g) st.
Proof.
  unfold bind.
  destruct (m1 st) as [s1 [a1|e1]]; [|reflexivity].
  destruct (m2 s1) as [s2 [a2|e2]]; [|reflexivity].
  destruct (m3 s2) as [s3 [a3|e3]]; reflexivity.
Qed.

Lemma search_file_grows sp root :
  grows Q (search_file stdout_encodes encode mkdtemp search sp root string f).
Proof.
  unfold search_file.
  eapply grows_ext; [intros st; apply regroup|].
  apply grows_bind; [assumption | apply name_block_grows | intros t].
  apply grows_bind; [assumption | | auto with grow].
  destruct t; [apply handle_tar_grows|].
  apply grows_bind; [assumption | solve [auto with grow] | intros z].
  destruct z; [apply handle_zip_grows|].
  apply grows_bind; [assumption | solve [auto with grow] | intros s].
  destruct s; [apply handle_7z_grows|].
  apply grows_bind; [assumption | solve [auto with grow] | intros r].
  destruct r; [apply handle_rar_grows|].
  apply grows_bind; [assumption | apply handle_bin_grows | intros found].
  destruct found; simpl; [auto with grow|].
  apply grows_bind; [assumption | apply handle_text_grows | auto with grow].
Qed.

End One_file.

Lemma search_walk_grows tree : forall sp root,
  grows Q (search_walk stdout_encodes encode mkdtemp sp root string tree).
Proof.
  induction tree as [fs ds IHfs IHds] using dir_tree_ind.
  intros sp root. simpl.
  apply grows_bind; [assumption | | intros _].
  - apply grows_for_each; [assumption | assumption |].
    rewrite Forall_forall in *. intros f Hf.
    apply grows_bind; [assumption | solve [auto with grow] | intros _].
    apply search_file_grows. intros sp' tempdir tree E.
    apply grows_bind; [assumption | solve [auto with grow] | intros _].
    apply (IHfs f Hf tree E).
  - apply grows_for_each; [assumption | assumption |].
    rewrite Forall_forall in *. intros [n d] Hd.
    apply (IHds (n, d) Hd).
Qed.

Theorem search_grows sp path tree :
  grows Q (search stdout_encodes encode mkdtemp sp path string tree).
Proof.
  unfold search.
  apply grows_bind; [assumption | solve [auto with grow] | intros _].
  destruct tree as [d|]; [apply search_walk_grows | auto with grow].
Qed.

End Search_grows.

(** ** Filename matches, the result list and the files a run probes *)

Lemma filename_matches_app (o1 o2 : list line) :
  filename_matches (o1 ++ o2) = filename_matches o1 ++ filename_matches o2.
Proof. apply flat_map_app. Qed.

Lemma encountered_app (c1 c2 : list call) :
  encountered (c1 ++ c2) = encountered c1 ++ encountered c2.
Proof. apply flat_map_app. Qed.

Lemma coherent_nil (string : pystr) : coherent string [] [] [].
Proof. repeat split. constructor. Qed.

Lemma coherent_app (string : pystr) o1 f1 c1 o2 f2 c2 :
  coherent string o1 f1 c1 -> coherent string o2 f2 c2 ->
  coherent string (o1 ++ o2) (f1 ++ f2) (c1 ++ c2).
Proof.
  intros (-> & H1 & R1) (-> & H2 & R2). repeat split.
  - rewrite filename_matches_app, map_app. reflexivity.
  - rewrite filename_matches_app, encountered_app, filter_app, H1, H2.
    reflexivity.
  - apply Forall_app. split; assumption.
Qed.

Lemma coherent_line (string : pystr) (l : line) :
  routine l = true -> coherent string [l] [] [].
Proof.
  destruct l as [c i m]. unfold routine. simpl. intros H.
  repeat split.
  - destruct c, m; try discriminate H; reflexivity.
  - destruct c, m; try discriminate H; reflexivity.
  - constructor; [|constructor]. simpl. intros ->. destruct m; discriminate H.
Qed.

Lemma coherent_call (string : pystr) (c : call) :
  inner_call c = true -> coherent string [] [] [c].
Proof.
  intros H. repeat split; [|constructor].
  destruct c as [r n|[| | |] p| | | |]; try discriminate H; reflexivity.
Qed.

Lemma coherent_file (string : pystr) (i : Z) (p : Path) :
  coherent string (name_lines string i p) (name_paths string p)
           [Probe Tar p].
Proof.
  unfold coherent, name_lines, name_paths. simpl.
  destruct (str_in string (str p)); simpl; repeat split;
    repeat constructor; discriminate.
Qed.

Lemma search_coherent stdout_encodes encode mkdtemp string sp path tree :
  grows (coherent string)
        (search stdout_encodes encode mkdtemp sp path string tree).
Proof.
  apply search_grows.
  - apply coherent_nil.
  - apply coherent_app.
  - apply coherent_line.
  - apply coherent_call.
  - apply coherent_file.
Qed.

(** ** What every run keeps *)

Lemma below_refl (p : Path) : below p p.
Proof. exists []. rewrite app_nil_r. reflexivity. Qed.

Lemma below_trans (p q r : Path) : below p q -> below q r -> below p r.
Proof.
  intros [a ->] [c ->]. exists (a ++ c). rewrite app_assoc. reflexivity.
Qed.

Lemma below_joinpath (p : Path) (n : pystr) : below p (p // n).
Proof. exists [n]. reflexivity. Qed.

Section Tidy.
Variable stdout_encodes : pystr -> bool.
Variable mkdtemp : nat -> Path.

Lemma tidy_refl sp root st : tidy mkdtemp sp root st st true.
Proof.
  split; [reflexivity|]. split; [lia|].
  exists [], [], 0. rewrite !app_nil_r, Nat.add_0_r.
  repeat split; constructor.
Qed.

Lemma tidy_trans sp root s1 s2 s3 ok :
  tidy mkdtemp sp root s1 s2 true -> tidy mkdtemp sp root s2 s3 ok ->
  tidy mkdtemp sp root s1 s3 ok.
Proof.
  intros (E1 & L1 & o1 & c1 & n1 & Ho1 & Hc1 & Ht1 & Fi1 & Fe1 & Fs1 & Fp1)
         (E2 & L2 & o2 & c2 & n2 & Ho2 & Hc2 & Ht2 & Fi2 & Fe2 & Fs2 & Fp2).
  specialize (E1 eq_refl).
  split; [intros H; rewrite (E2 H); exact E1|].
  split; [lia|].
  exists (o1 ++ o2), (c1 ++ c2), (n1 + n2).
  split; [rewrite Ho2, Ho1, app_assoc; reflexivity|].
  split; [rewrite Hc2, Hc1, app_assoc; reflexivity|].
  split; [lia|].
  split.
  { apply Forall_app. split; [exact Fi1|].
    rewrite <- E1. exact Fi2. }
  split.
  { unfold entered. rewrite flat_map_app. apply Forall_app.
    split; assumption. }
  split.
  { unfold scratch_dirs in *. rewrite flat_map_app, Fs1, Fs2, Ht1.
    rewrite seq_app, map_app. reflexivity. }
  unfold touched in *. rewrite flat_map_app. apply Forall_app. split.
  - eapply Forall_impl; [|exact Fp1]. intros p [H | (k & Hk & H)].
    + left. exact H.
    + right. exists k. split; [lia | exact H].
  - eapply Forall_impl; [|exact Fp2]. intros p [H | (k & Hk & H)].
    + left. exact H.
    + right. exists k. split; [lia | exact H].
Qed.

(** Going down, in the semantic path or in the directory, keeps less. *)
Lemma tidy_below sp sp' root root' st st' ok :
  below sp sp' -> below root root' ->
  tidy mkdtemp sp' root' st st' ok -> tidy mkdtemp sp root st st' ok.
Proof.
  intros Hsp Hroot
         (E & L & o & c & n & Ho & Hc & Ht & Fi & Fe & Fs & Fp).
  split; [exact E|]. split; [exact L|].
  exists o, c, n. repeat split; try assumption.
  - eapply Forall_impl; [|exact Fe]. intros q. apply below_trans, Hsp.
  - eapply Forall_impl; [|exact Fp]. intros p [H | H].
    + left. eapply below_trans; eassumption.
    + right. exact H.
Qed.

Lemma keeps_ext R (A : Type) (m m' : M A) :
  (forall st, m st = m' st) -> keeps R m' -> keeps R m.
Proof. intros E H st. rewrite E. apply H. Qed.

Lemma keeps_ret sp root (A : Type) (a : A) :
  keeps (tidy mkdtemp sp root) (ret a).
Proof. intros st. apply tidy_refl. Qed.

Lemma keeps_bind sp root (A B : Type) (m : M A) (k : A -> M B) :
  keeps (tidy mkdtemp sp root) m ->
  (forall a, keeps (tidy mkdtemp sp root) (k a)) ->
  keeps (tidy mkdtemp sp root) (bind m k).
Proof.
  intros Hm Hk st. unfold bind. specialize (Hm st).
  destruct (m st) as [st' [a|e]]; simpl in *.
  - eapply tidy_trans; [exact Hm | apply Hk].
  - exact Hm.
Qed.

(** One line at the current level, printed or refused, or one call on a
    path under [root]. *)
Lemma tidy_print sp root st tint msg :
  Forall (below sp) (entered [Line tint (INDENT_LEVEL st) msg]) ->
  tidy mkdtemp sp root st
       (fst (print stdout_encodes (Line tint (INDENT_LEVEL st) msg) st))
       (is_ok (snd (print stdout_encodes
                          (Line tint (INDENT_LEVEL st) msg) st))).
Proof.
  intros H. unfold print.
  destruct (stdout_encodes (render_line (Line tint (INDENT_LEVEL st) msg))).
  - split; [reflexivity|]. split; [simpl; lia|].
    exists [Line tint (INDENT_LEVEL st) msg], [], 0.
    simpl. rewrite app_nil_r, Nat.add_0_r.
    repeat split; try constructor; simpl; try lia; try constructor.
    exact H.
  - simpl. split; [discriminate|]. split; [lia|].
    exists [], [], 0. rewrite !app_nil_r, Nat.add_0_r.
    repeat split; constructor.
Qed.

Lemma keeps_info sp root msg :
  Forall (below sp) (entered [Line Plain 0 msg]) ->
  keeps (tidy mkdtemp sp root) (info stdout_encodes msg).
Proof.
  intros H st. unfold info. change (LOG_LEVEL <=? 1)%Z with true.
  cbv iota. apply tidy_print. exact H.
Qed.

Lemma keeps_warn sp root msg :
  Forall (below sp) (entered [Line YELLOW 0 msg]) ->
  keeps (tidy mkdtemp sp root) (warn stdout_encodes msg).
Proof. intros H st. unfold warn. apply tidy_print. exact H. Qed.

Lemma keeps_success sp root msg :
  Forall (below sp) (entered [Line GREEN 0 msg]) ->
  keeps (tidy mkdtemp sp root) (success stdout_encodes msg).
Proof. intros H st. unfold success. apply tidy_print. exact H. Qed.

Lemma keeps_lib sp root (A : Type) (c : call) (answer : outcome A) :
  scratch_dirs [c] = [] -> Forall (below root) (touched [c]) ->
  keeps (tidy mkdtemp sp root) (lib c answer).
Proof.
  intros Hs Hp st. unfold lib. simpl fst. simpl snd.
  split; [reflexivity|]. split; [simpl; lia|].
  exists [], [c], 0. simpl stdout. simpl calls. simpl tempdirs.
  simpl INDENT_LEVEL. rewrite app_nil_r, Nat.add_0_r.
  repeat split; try constructor.
  - exact Hs.
  - eapply Forall_impl; [|exact Hp]. intros p H. left. exact H.
Qed.

Lemma keeps_found_paths_append sp root p :
  keeps (tidy mkdtemp sp root) (found_paths_append p).
Proof.
  intros st. split; [reflexivity|]. split; [simpl; lia|].
  exists [], [], 0. simpl. rewrite !app_nil_r, Nat.add_0_r.
  repeat split; constructor.
Qed.

Lemma keeps_raise sp root (A : Type) (e : exn) :
  keeps (tidy mkdtemp sp root) (fun st => (st, @Raise A e)).
Proof.
  intros st. simpl. split; [discriminate|]. split; [lia|].
  exists [], [], 0. rewrite !app_nil_r, Nat.add_0_r.
  repeat split; constructor.
Qed.

Lemma keeps_for_each sp root (A : Type) (body : A -> M unit) (xs : list A) :
  Forall (fun x => keeps (tidy mkdtemp sp root) (body x)) xs ->
  keeps (tidy mkdtemp sp root) (for_each body xs).
Proof.
  induction 1 as [|x xs Hx _ IH]; simpl.
  - apply keeps_ret.
  - apply keeps_bind; [exact Hx | intros _; exact IH].
Qed.

(** [INDENT_LEVEL += 1], the body, [INDENT_LEVEL -= 1]. *)
Lemma keeps_indented sp root (A : Type) (m : M A) :
  keeps (tidy mkdtemp sp root) m ->
  keeps (tidy mkdtemp sp root) (indent_by 1 ;; m ;; indent_by (-1)).
Proof.
  intros Hm st. unfold bind, indent_by. cbv beta iota.
  specialize (Hm (State (INDENT_LEVEL st + 1) (found_paths st) (stdout st)
                        (tempdirs st) (calls st))).
  destruct (m _) as [st' [a|e]];
    destruct Hm as (E & L & o & c & n & Ho & Hc & Ht & Fi & Fe & Fs & Fp);
    unfold tidy; simpl in *.
  - split; [intros _; rewrite (E eq_refl); lia|].
    split; [rewrite (E eq_refl); lia|].
    exists o, c, n. repeat split; try assumption.
    eapply Forall_impl; [|exact Fi]. simpl. intros l. lia.
  - split; [discriminate|]. split; [lia|].
    exists o, c, n. repeat split; try assumption.
    eapply Forall_impl; [|exact Fi]. simpl. intros l. lia.
Qed.

(** A scratch directory is made, the archive at [path] is unpacked into
    it, and [K] goes on inside it. *)
Lemma keeps_unpack sp root fmt path (K : Path -> M unit) :
  below root path ->
  (forall tempdir, keeps (tidy mkdtemp sp tempdir) (K tempdir)) ->
  keeps (tidy mkdtemp sp root)
        (with_TemporaryDirectory mkdtemp
           (fun tempdir =>
              lib (Extractall fmt path tempdir) (Ok tt) ;; K tempdir)).
Proof.
  intros Hpath HK st. unfold with_TemporaryDirectory, bind, lib.
  cbv beta iota. simpl tempdirs. simpl calls.
  set (st1 := State _ _ _ _ _).
  specialize (HK (mkdtemp (tempdirs st)) st1).
  destruct (K (mkdtemp (tempdirs st)) st1) as [st2 r].
  destruct HK as (E & L & o & c & n & Ho & Hc & Ht & Fi & Fe & Fs & Fp).
  subst st1. unfold tidy. simpl in *.
  split; [exact E|]. split; [exact L|].
  exists o, (Extractall fmt path (mkdtemp (tempdirs st)) :: c), (S n).
  split; [exact Ho|].
  split; [rewrite Hc, <- app_assoc; reflexivity|].
  split; [lia|].
  split; [exact Fi|]. split; [exact Fe|].
  split; [simpl; rewrite Fs; reflexivity|].
  simpl. constructor; [left; exact Hpath|].
  eapply Forall_impl; [|exact Fp]. intros p [H | (k & Hk & H)].
  - right. exists (tempdirs st). split; [lia | exact H].
  - right. exists k. split; [lia | exact H].
Qed.

End Tidy.

Section Search_tidy.
Variable stdout_encodes : pystr -> bool.
Variable encode : encoding -> pystr -> outcome bytes.
Variable mkdtemp : nat -> Path.
Variable string : pystr.

Lemma keeps_below sp sp' root root' (A : Type) (m : M A) :
  below sp sp' -> below root root' ->
  keeps (tidy mkdtemp sp' root') m -> keeps (tidy mkdtemp sp root) m.
Proof.
  intros Hs Hr H st. eapply tidy_below; [exact Hs | exact Hr | apply H].
Qed.

Ltac quiet_line := intros; simpl; constructor.
Ltac plain_call := first [reflexivity | repeat constructor; assumption].

Section One_file.
Variable recurse : Path -> Path -> pystr -> dir -> M unit.
Variable f : file.
Variables sp sp' root path : Path.
Hypothesis sp_below : below sp sp'.
Hypothesis path_below : below root path.
Hypothesis recurse_tidy : forall tempdir tree,
  extractall f = Ok tree ->
  keeps (tidy mkdtemp sp' tempdir) (recurse sp' tempdir string tree).

Ltac unpack_cases fmt :=
  apply keeps_bind; [apply keeps_info; constructor | intros _];
  destruct (extractall f) as [tree|e] eqn:E;
  [ apply keeps_ext
      with (m' := with_TemporaryDirectory mkdtemp
                    (fun tempdir =>
                       lib (Extractall fmt path tempdir) (Ok tt) ;;
                       recurse sp' tempdir string tree));
    [ reflexivity
    | apply keeps_unpack; [exact path_below |];
      let t := fresh "tempdir" in
      intros t;
      apply keeps_below with (sp' := sp') (root' := t);
      [ exact sp_below | apply below_refl
      | apply recurse_tidy; reflexivity ] ]
  | destruct e;
    first
      [ match type of E with
        | _ = Raise ?x =>
            apply keeps_ext
              with (m' := with_TemporaryDirectory mkdtemp
                            (fun tempdir =>
                               lib (Extractall fmt path tempdir) (Ok tt) ;;
                               (fun st => (st, @Raise unit x))))
        end;
        [ reflexivity
        | apply keeps_unpack; [exact path_below | intros ?];
          apply keeps_raise ]
      | apply keeps_ext
          with (m' := with_TemporaryDirectory mkdtemp
                        (fun tempdir =>
                           lib (Extractall fmt path tempdir) (Ok tt) ;;
                           warn stdout_encodes (Failed_to_extract fmt path)));
        [ reflexivity
        | apply keeps_unpack; [exact path_below | intros ?];
          apply keeps_warn; constructor ] ] ].

Lemma handle_tar_tidy :
  keeps (tidy mkdtemp sp root)
        (handle_tar stdout_encodes mkdtemp recurse sp' path string f).
Proof. unfold handle_tar. unpack_cases Tar. Qed.

Lemma handle_zip_tidy :
  keeps (tidy mkdtemp sp root)
        (handle_zip stdout_encodes mkdtemp recurse sp' path string f).
Proof. unfold handle_zip. unpack_cases Zip. Qed.

Lemma handle_7z_tidy :
  keeps (tidy mkdtemp sp root)
        (handle_7z stdout_encodes mkdtemp recurse sp' path string f).
Proof. unfold handle_7z. unpack_cases SevenZip. Qed.

Lemma handle_rar_tidy :
  keeps (tidy mkdtemp sp root)
        (handle_rar stdout_encodes mkdtemp recurse sp' path string f).
Proof. unfold handle_rar. unpack_cases Rar. Qed.

Lemma handle_bin_loop_tidy data encodings :
  keeps (tidy mkdtemp sp root)
        (handle_bin_loop stdout_encodes encode path string data encodings).
Proof.
  induction encodings as [|enc rest IH]; simpl; [apply keeps_ret|].
  apply keeps_bind; [apply keeps_lib; [reflexivity | constructor]|].
  intros needle. destruct (bytes_in needle data); [|exact IH].
  apply keeps_bind; [apply keeps_success; constructor|].
  intros _. apply keeps_ret.
Qed.

Lemma handle_bin_tidy :
  keeps (tidy mkdtemp sp root)
        (handle_bin stdout_encodes encode sp' path string f).
Proof.
  unfold handle_bin. apply keeps_bind.
  - apply keeps_lib; [reflexivity|]. repeat constructor. exact path_below.
  - intros data. apply handle_bin_loop_tidy.
Qed.

Lemma handle_text_tidy :
  keeps (tidy mkdtemp sp root)
        (handle_text stdout_encodes sp' path string f).
Proof.
  assert (Hlib : forall (A : Type) (answer : outcome A),
             keeps (tidy mkdtemp sp root) (lib (Open_r path) answer)).
  { intros A answer. apply keeps_lib; [reflexivity|].
    repeat constructor. exact path_below. }
  unfold handle_text. destruct (read_text f) as [data|e].
  - apply keeps_ext
      with (m' := lib (Open_r path) (Ok tt) ;;
                  if str_in string data
                  then success stdout_encodes (Found_in string path) ;;
                       ret true
                  else ret false).
    + intros st. unfold bind, lib. destruct (str_in string data); reflexivity.
    + apply keeps_bind; [apply Hlib | intros _].
      destruct (str_in string data); [|apply keeps_ret].
      apply keeps_bind; [apply keeps_success; constructor|].
      intros _. apply keeps_ret.
  - destruct e;
      first
        [ apply keeps_ext with (m' := lib (Open_r path) (Ok false));
          [ reflexivity | apply Hlib ]
        | match goal with
          | |- context [ @Raise pystr ?x ] =>
              apply keeps_ext with (m' := lib (Open_r path) (@Raise bool x))
          end;
          [ reflexivity | apply Hlib ] ].
Qed.

End One_file.

Lemma search_file_tidy recurse f sp root :
  (forall tempdir tree,
     extractall f = Ok tree ->
     keeps (tidy mkdtemp (sp // name f) tempdir)
           (recurse (sp // name f) tempdir string tree)) ->
  keeps (tidy mkdtemp sp root)
        (search_file stdout_encodes encode mkdtemp recurse sp root string f).
Proof.
  intros Hrec. unfold search_file.
  pose proof (below_joinpath sp (name f)) as Hsp.
  pose proof (below_joinpath root (name f)) as Hroot.
  assert (Hprobe : forall fmt (answer : outcome bool),
             keeps (tidy mkdtemp sp root)
                   (lib (Probe fmt (root // name f)) answer)).
  { intros fmt answer. apply keeps_lib; [reflexivity|].
    repeat constructor. exact Hroot. }
  apply keeps_bind.
  { destruct (str_in string (str (root // name f))); [|apply keeps_ret].
    apply keeps_bind; [apply keeps_success; constructor|].
    intros _. apply keeps_found_paths_append. }
  intros _. apply keeps_indented.
  apply keeps_bind; [apply Hprobe | intros t].
  destruct t; [apply handle_tar_tidy; assumption|].
  apply keeps_bind; [apply Hprobe | intros z].
  destruct z; [apply handle_zip_tidy; assumption|].
  apply keeps_bind; [apply Hprobe | intros s].
  destruct s; [apply handle_7z_tidy; assumption|].
  apply keeps_bind; [apply Hprobe | intros r].
  destruct r; [apply handle_rar_tidy; assumption|].
  apply keeps_bind; [apply handle_bin_tidy; assumption | intros found].
  destruct found; simpl; [apply keeps_ret|].
  apply keeps_bind; [apply handle_text_tidy; assumption|].
  intros _. apply keeps_ret.
Qed.

Lemma search_walk_tidy tree : forall sp root,
  keeps (tidy mkdtemp sp root)
        (search_walk stdout_encodes encode mkdtemp sp root string tree).
Proof.
  induction tree as [fs ds IHfs IHds] using dir_tree_ind.
  intros sp root. simpl. apply keeps_bind.
  - apply keeps_for_each. rewrite Forall_forall in *. intros f Hf.
    apply keeps_bind;
      [ apply keeps_lib; [reflexivity|];
        repeat constructor; apply below_joinpath
      | intros _ ].
    apply search_file_tidy. intros tempdir tree E.
    apply keeps_bind.
    + apply keeps_info. repeat constructor. apply below_refl.
    + intros _. apply (IHfs f Hf tree E).
  - intros _. apply keeps_for_each. rewrite Forall_forall in *.
    intros [n d] Hd.
    apply keeps_below with (sp' := sp) (root' := root // n).
    + apply below_refl.
    + apply below_joinpath.
    + apply (IHds (n, d) Hd).
Qed.

Lemma search_tidy sp path tree :
  keeps (tidy mkdtemp sp path)
        (search stdout_encodes encode mkdtemp sp path string tree).
Proof.
  unfold search. apply keeps_bind.
  - apply keeps_info. repeat constructor. apply below_refl.
  - intros _. destruct tree as [d|]; [apply search_walk_tidy|].
    apply keeps_ret.
Qed.

End Search_tidy.

(** ** The test of names over a run *)

Lemma bind_assoc (A B C : Type) (m : M A) (k : A -> M B) (h : B -> M C) st :
  bind (bind m k) h st = bind m (fun a => bind (k a) h) st.
Proof. unfold bind. destruct (m st) as [st' [a|e]]; reflexivity. Qed.

Section Matched.
Variable stdout_encodes : pystr -> bool.
Variable string : pystr.

(** A step that prints no filename match and comes to no file. *)
Lemma matched_quiet st st' ok out cl :
  stdout st' = stdout st ++ out -> calls st' = calls st ++ cl ->
  filename_matches out = [] -> came_to cl = [] ->
  matched stdout_encodes string st st' ok.
Proof.
  intros Ho Hc Hf Hl. exists out, cl, []. rewrite Hf, Hl.
  repeat split; auto.
Qed.

Lemma matched_same st st' ok :
  stdout st' = stdout st -> calls st' = calls st ->
  matched stdout_encodes string st st' ok.
Proof.
  intros Ho Hc. apply matched_quiet with (out := []) (cl := []);
    rewrite ?app_nil_r; auto.
Qed.

Lemma matched_trans s1 s2 s3 ok :
  matched stdout_encodes string s1 s2 true ->
  matched stdout_encodes string s2 s3 ok ->
  matched stdout_encodes string s1 s3 ok.
Proof.
  intros (o1 & c1 & p1 & Ho1 & Hc1 & Hf1 & Hok1 & _)
         (o2 & c2 & p2 & Ho2 & Hc2 & Hf2 & Hok2 & Hp2).
  rewrite (Hok1 eq_refl), app_nil_r in Hf1.
  exists (o1 ++ o2), (c1 ++ c2), p2.
  split; [rewrite Ho2, Ho1, app_assoc; reflexivity|].
  split; [rewrite Hc2, Hc1, app_assoc; reflexivity|].
  split; [|split; assumption].
  unfold came_to, filename_matches in *.
  rewrite !flat_map_app, filter_app, Hf1, Hf2, app_assoc. reflexivity.
Qed.

Lemma matched_ret (A : Type) (a : A) :
  keeps (matched stdout_encodes string) (ret a).
Proof. intros st. apply matched_same; reflexivity. Qed.

Lemma matched_bind (A B : Type) (m : M A) (k : A -> M B) :
  keeps (matched stdout_encodes string) m ->
  (forall a, keeps (matched stdout_encodes string) (k a)) ->
  keeps (matched stdout_encodes string) (bind m k).
Proof.
  intros Hm Hk st. unfold bind. specialize (Hm st).
  destruct (m st) as [st' [a|e]]; simpl in *.
  - eapply matched_trans; [exact Hm | apply Hk].
  - exact Hm.
Qed.

Lemma matched_for_each (A : Type) (body : A -> M unit) (xs : list A) :
  Forall (fun x => keeps (matched stdout_encodes string) (body x)) xs ->
  keeps (matched stdout_encodes string) (for_each body xs).
Proof.
  induction 1 as [|x xs Hx _ IH]; simpl.
  - apply matched_ret.
  - apply matched_bind; [exact Hx | intros _; exact IH].
Qed.

(** A line that is no filename match, printed or refused. *)
Lemma matched_print (l : line) :
  filename_matches [l] = [] ->
  keeps (matched stdout_encodes string) (print stdout_encodes l).
Proof.
  intros H st. unfold print. destruct (stdout_encodes (render_line l)).
  - apply matched_quiet with (out := [l]) (cl := []);
      [ reflexivity | simpl; rewrite app_nil_r; reflexivity | exact H
      | reflexivity ].
  - apply matched_same; reflexivity.
Qed.

Lemma matched_info msg :
  filename_matches [Line Plain 0 msg] = [] ->
  keeps (matched stdout_encodes string) (info stdout_encodes msg).
Proof.
  intros H st. unfold info. change (LOG_LEVEL <=? 1)%Z with true.
  cbv iota. apply matched_print. exact H.
Qed.

Lemma matched_warn msg :
  filename_matches [Line YELLOW 0 msg] = [] ->
  keeps (matched stdout_encodes string) (warn stdout_encodes msg).
Proof. intros H st. unfold warn. apply matched_print. exact H. Qed.

Lemma matched_success msg :
  filename_matches [Line GREEN 0 msg] = [] ->
  keeps (matched stdout_encodes string) (success stdout_encodes msg).
Proof. intros H st. unfold success. apply matched_print. exact H. Qed.

Lemma matched_lib (A : Type) (c : call) (answer : outcome A) :
  came_to [c] = [] ->
  keeps (matched stdout_encodes string) (lib c answer).
Proof.
  intros H st. apply matched_quiet with (out := []) (cl := [c]);
    [ simpl; rewrite app_nil_r; reflexivity | reflexivity | reflexivity
    | exact H ].
Qed.

Lemma matched_indent_by k :
  keeps (matched stdout_encodes string) (indent_by k).
Proof. intros st. apply matched_same; reflexivity. Qed.

Lemma matched_raise (A : Type) (e : exn) :
  keeps (matched stdout_encodes string) (fun st => (st, @Raise A e)).
Proof. intros st. apply matched_same; reflexivity. Qed.

Lemma matched_with_TemporaryDirectory mkdtemp (A : Type)
      (body : Path -> M A) :
  (forall tempdir, keeps (matched stdout_encodes string) (body tempdir)) ->
  keeps (matched stdout_encodes string)
        (with_TemporaryDirectory mkdtemp body).
Proof.
  intros H st. unfold with_TemporaryDirectory.
  exact (H (mkdtemp (tempdirs st))
           (State (INDENT_LEVEL st) (found_paths st) (stdout st)
                  (S (tempdirs st)) (calls st))).
Qed.

(** The walk hands over the file [n] of [root] and its name is tested:
    the one place where a file is come to and where a filename match is
    printed. *)
Lemma name_test_matched root n :
  keeps (matched stdout_encodes string)
        (lib (Listed root n) (Ok tt) ;;
         if str_in string (str (root // n)) then
           success stdout_encodes (Found_in_filename string (root // n)) ;;
           found_paths_append (str (root // n))
         else ret tt).
Proof.
  intros st. unfold bind, lib, success, print, found_paths_append, ret.
  cbv beta iota. simpl INDENT_LEVEL.
  destruct (str_in string (str (root // n))) eqn:Hhit.
  - destruct (stdout_encodes _) eqn:Henc; simpl fst; simpl snd.
    + exists [Line GREEN (INDENT_LEVEL st)
                   (Found_in_filename string (root // n))],
             [Listed root n], [].
      simpl. rewrite Hhit. repeat split; auto.
    + exists [], [Listed root n], [root // n].
      simpl. rewrite Hhit, app_nil_r. repeat split; try discriminate.
      right. exists (root // n), (INDENT_LEVEL st). split; [reflexivity|].
      exact Henc.
  - simpl. exists [], [Listed root n], []. simpl.
    rewrite Hhit, app_nil_r. repeat split; auto.
Qed.

Section Matched_file.
Variable encode : encoding -> pystr -> outcome bytes.
Variable mkdtemp : nat -> Path.
Variable recurse : Path -> Path -> pystr -> dir -> M unit.
Variable f : file.
Variables sp path : Path.
Hypothesis recurse_matched : forall tempdir tree,
  extractall f = Ok tree ->
  keeps (matched stdout_encodes string) (recurse sp tempdir string tree).

Ltac unpack_matched :=
  apply matched_bind; [apply matched_info; reflexivity | intros _];
  apply matched_with_TemporaryDirectory;
  let t := fresh "tempdir" in
  let s := fresh "st" in
  intros t s; unfold lib;
  destruct (extractall f) as [tree|e] eqn:E; [|destruct e];
  cbv beta iota;
  (eapply matched_trans;
   [ | first [ apply recurse_matched; reflexivity
             | apply matched_warn; reflexivity
             | apply (@matched_raise unit) ] ];
   eapply matched_quiet with (out := []);
   [ rewrite app_nil_r; reflexivity | reflexivity | reflexivity
   | reflexivity ]).

Lemma handle_tar_matched :
  keeps (matched stdout_encodes string)
        (handle_tar stdout_encodes mkdtemp recurse sp path string f).
Proof. unfold handle_tar. unpack_matched. Qed.

Lemma handle_zip_matched :
  keeps (matched stdout_encodes string)
        (handle_zip stdout_encodes mkdtemp recurse sp path string f).
Proof. unfold handle_zip. unpack_matched. Qed.

Lemma handle_7z_matched :
  keeps (matched stdout_encodes string)
        (handle_7z stdout_encodes mkdtemp recurse sp path string f).
Proof. unfold handle_7z. unpack_matched. Qed.

Lemma handle_rar_matched :
  keeps (matched stdout_encodes string)
        (handle_rar stdout_encodes mkdtemp recurse sp path string f).
Proof. unfold handle_rar. unpack_matched. Qed.

Lemma handle_bin_loop_matched data encodings :
  keeps (matched stdout_encodes string)
        (handle_bin_loop stdout_encodes encode path string data encodings).
Proof.
  induction encodings as [|enc rest IH]; simpl; [apply matched_ret|].
  apply matched_bind; [apply matched_lib; reflexivity|].
  intros needle. destruct (bytes_in needle data); [|exact IH].
  apply matched_bind; [apply matched_success; reflexivity|].
  intros _. apply matched_ret.
Qed.

Lemma handle_bin_matched :
  keeps (matched stdout_encodes string)
        (handle_bin stdout_encodes encode sp path string f).
Proof.
  unfold handle_bin. apply matched_bind.
  - apply matched_lib. reflexivity.
  - intros data. apply handle_bin_loop_matched.
Qed.

Lemma handle_text_matched :
  keeps (matched stdout_encodes string)
        (handle_text stdout_encodes sp path string f).
Proof.
  intros st. unfold handle_text, lib.
  destruct (read_text f) as [data|e]; [|destruct e]; cbv beta iota;
    try destruct (str_in string data);
    (eapply matched_trans;
     [ | first [ apply (@matched_ret bool)
               | apply (@matched_raise bool)
               | apply matched_bind;
                 [ apply matched_success; reflexivity
                 | intros _; apply matched_ret ] ] ];
     eapply matched_quiet with (out := []);
     [ rewrite app_nil_r; reflexivity | reflexivity | reflexivity
     | reflexivity ]).
Qed.

End Matched_file.

Lemma search_file_matched encode mkdtemp recurse f sp root :
  (forall tempdir tree,
     extractall f = Ok tree ->
     keeps (matched stdout_encodes string)
           (recurse (sp // name f) tempdir string tree)) ->
  keeps (matched stdout_encodes string)
        (lib (Listed root (name f)) (Ok tt) ;;
         search_file stdout_encodes encode mkdtemp recurse sp root string f).
Proof.
  intros Hrec. unfold search_file.
  eapply keeps_ext; [intros st; symmetry; apply bind_assoc|].
  apply matched_bind; [apply name_test_matched | intros _].
  apply matched_bind; [apply matched_indent_by | intros _].
  apply matched_bind; [|intros _; apply matched_indent_by].
  apply matched_bind; [apply matched_lib; reflexivity | intros t].
  destruct t; [apply handle_tar_matched; assumption|].
  apply matched_bind; [apply matched_lib; reflexivity | intros z].
  destruct z; [apply handle_zip_matched; assumption|].
  apply matched_bind; [apply matched_lib; reflexivity | intros s].
  destruct s; [apply handle_7z_matched; assumption|].
  apply matched_bind; [apply matched_lib; reflexivity | intros r].
  destruct r; [apply handle_rar_matched; assumption|].
  apply matched_bind; [apply handle_bin_matched | intros found].
  destruct found; simpl; [apply matched_ret|].
  apply matched_bind; [apply handle_text_matched|].
  intros _. apply matched_ret.
Qed.

Lemma search_walk_matched encode mkdtemp tree : forall sp root,
  keeps (matched stdout_encodes string)
        (search_walk stdout_encodes encode mkdtemp sp root string tree).
Proof.
  induction tree as [fs ds IHfs IHds] using dir_tree_ind.
  intros sp root. simpl. apply matched_bind.
  - apply matched_for_each. rewrite Forall_forall in *. intros f Hf.
    apply search_file_matched. intros tempdir tree E.
    apply matched_bind.
    + apply matched_info. reflexivity.
    + intros _. apply (IHfs f Hf tree E).
  - intros _. apply matched_for_each. rewrite Forall_forall in *.
    intros [n d] Hd. apply (IHds (n, d) Hd).
Qed.

Lemma search_matched encode mkdtemp sp path tree :
  keeps (matched stdout_encodes string)
        (search stdout_encodes encode mkdtemp sp path string tree).
Proof.
  unfold search. apply matched_bind.
  - apply matched_info. reflexivity.
  - intros _. destruct tree as [d|]; [apply search_walk_matched|].
    apply matched_ret.
Qed.

End Matched.
(** ** What a strict UTF-8 output prints *)

Lemma utf8_stdout_app (s t : pystr) :
  utf8_stdout (s ++ t) = utf8_stdout s && utf8_stdout t.
Proof. unfold utf8_stdout. apply forallb_app. Qed.

Lemma utf8_stdout_spaces (n : nat) : utf8_stdout (repeat 32%N n) = true.
Proof. induction n as [|n IH]; [reflexivity | exact IH]. Qed.

(** Colour codes and indentation are ASCII: a line is refused only for
    its message. *)
Lemma utf8_printable (msg : message) :
  utf8_stdout (render msg) = true -> printable utf8_stdout msg.
Proof.
  intros H c i. unfold render_line. simpl tint. simpl indent. simpl text.
  rewrite !utf8_stdout_app, utf8_stdout_spaces, H.
  destruct c; reflexivity.
Qed.

Lemma utf8_speakable (string : pystr) (p : Path) :
  forallb (fun msg => utf8_stdout (render msg)) (messages_about string p) =
    true ->
  speakable utf8_stdout string p.
Proof.
  intros H msg Hin. apply utf8_printable.
  rewrite forallb_forall in H. apply H. exact Hin.
Qed.

Lemma lenient_printable (msg : message) : printable lenient_stdout msg.
Proof. intros c i. reflexivity. Qed.

(** ** The claims on filename matches, the result list and the exit status *)

Lemma came_to_touched (cl : list call) (p : Path) :
  In p (came_to cl) -> In p (touched cl).
Proof.
  unfold came_to, touched. rewrite !in_flat_map.
  intros (c & Hc & Hp). exists c. split; [exact Hc|].
  destruct c; try contradiction. exact Hp.
Qed.

(** C1, as the code has it: the name test is a literal substring test of
    the search string against the stringified real path of the file (the
    directory [os.walk] is at, joined with the file name; inside an archive
    that is a path under the scratch directory), not against the semantic
    path.  In every run, finished or not: the files the run comes to lie
    under the directory searched or under a scratch directory that an
    archive was unpacked into; those of them whose real path has the
    search string as a substring are, in order and one for one, the
    filename matches printed, whatever the files contain; the one
    exception is a match that the standard output cannot encode: printing
    it raises, the run ends there, and that file, the last one come to,
    is left without its line. *)
Theorem C1_filename_match_on_real_path
        stdout_encodes encode mkdtemp string sp path tree st :
  let run := search stdout_encodes encode mkdtemp sp path string tree st in
  exists out cl pending,
    stdout (fst run) = stdout st ++ out /\
    calls (fst run) = calls st ++ cl /\
    Forall (fun p => below path p \/
                     exists tempdir,
                       In tempdir (scratch_dirs cl) /\ below tempdir p)
           (came_to cl) /\
    filter (fun p => str_in string (str p)) (came_to cl) =
      filename_matches out ++ pending /\
    Forall (fun p => Substring string (str p)) (filename_matches out) /\
    (pending = [] \/
     exists p i,
       pending = [p] /\
       stdout_encodes
         (render_line (Line GREEN i (Found_in_filename string p))) = false /\
       snd run <> Ok tt).
Proof.
  intros run. subst run.
  destruct (search_matched stdout_encodes string encode mkdtemp sp path
                           tree st)
    as (out & cl & pending & Ho & Hc & Hf & Hok & Hp).
  destruct (search_tidy stdout_encodes encode mkdtemp string sp path tree st)
    as (_ & _ & out' & cl' & n & _ & Hc' & _ & _ & _ & Fs & Fp).
  rewrite Hc in Hc'. apply app_inv_head in Hc'. subst cl'.
  exists out, cl, pending.
  split; [exact Ho|]. split; [exact Hc|].
  split.
  { apply Forall_forall. intros p Hin. apply came_to_touched in Hin.
    rewrite Forall_forall in Fp.
    destruct (Fp p Hin) as [H | (k & Hk & H)]; [left; exact H|].
    right. exists (mkdtemp k). split; [|exact H].
    rewrite Fs. apply in_map. apply in_seq. lia. }
  split; [exact Hf|].
  split.
  { apply Forall_forall. intros p Hin.
    assert (H : In p (filter (fun p => str_in string (str p)) (came_to cl)))
      by (rewrite Hf; apply in_or_app; left; exact Hin).
    apply filter_In in H. apply str_in_spec, H. }
  destruct Hp as [-> | (p & i & -> & Henc)]; [left; reflexivity|].
  right. exists p, i. split; [reflexivity|]. split; [exact Henc|].
  intros Hr. rewrite Hr in Hok. discriminate (Hok eq_refl).
Qed.

(** C1 as stated fails: [a.txt] inside [root/secret.zip] has the semantic
    path [root/secret.zip/a.txt], which contains "secret"; the run comes
    to it, at [/tmp/tmp0/a.txt], and prints no filename match for it. *)
Lemma C1_semantic_path_not_tested :
  let string := py "secret" in
  let run := main utf8_stdout codec scratch
                  (fun _ => Some (Dir [secret_zip] [])) string root in
  str_in string (str (root // py "secret.zip" // py "a.txt")) = true /\
  In (Line Plain 1 (Entering (root // py "secret.zip"))) (stdout (fst run)) /\
  came_to (calls (fst run)) =
    [root // py "secret.zip"; scratch 0 // py "a.txt"] /\
  filename_matches (stdout (fst run)) = [root // py "secret.zip"] /\
  filename_matches
    (stdout (fst (search_file utf8_stdout codec scratch
                    (fun sp tempdir s d =>
                       search utf8_stdout codec scratch sp tempdir s
                              (Some d))
                    (root // py "secret.zip") (scratch 0) string a_txt
                    initial))) = [].
Proof. vm_compute. repeat split. do 3 right. left. reflexivity. Qed.

(** C3, as the code has it: only filename matches are collected.  What a
    run appends to [found_paths] is the stringified path of each filename
    match it prints, once each and in the order of printing; nothing
    already in the list is removed or moved. *)
Theorem C3_found_paths_are_filename_matches
        stdout_encodes encode mkdtemp string sp path tree st :
  exists out,
    stdout (fst (search stdout_encodes encode mkdtemp sp path string tree
                        st)) =
      stdout st ++ out /\
    found_paths (fst (search stdout_encodes encode mkdtemp sp path string
                             tree st)) =
      found_paths st ++ map str (filename_matches out).
Proof.
  destruct (search_coherent stdout_encodes encode mkdtemp string sp path tree
                            st)
    as (out & fp & cl & (Ho & Hf & _) & (-> & _)).
  exists out. split; assumption.
Qed.

(** C3 as stated fails: the content match in [notes.txt] is printed and
    the list stays empty. *)
Lemma C3_content_match_not_collected :
  let string := py "xyz42" in
  let run := main utf8_stdout codec scratch
                  (fun _ => Some (Dir [notes_txt] [])) string root in
  content_matches (stdout (fst run)) =
    [Line GREEN 1 (Found_with_encoding string (root // py "notes.txt") UTF_8)]
  /\ found_paths (fst run) = []
  /\ snd run = 0%Z.
Proof. vm_compute. repeat split. Qed.

(** C4, as the code has it: the exit status is 0 exactly when [search]
    returns, whatever it found, and 1 otherwise; no error line is ever
    printed; and a root path with no directory behind it is not an error:
    the walk is empty, and the run prints its first line and ends with
    status 0; it ends with status 1 only when the standard output cannot
    encode that line, with nothing printed. *)
Theorem C4_exit_status stdout_encodes encode mkdtemp fs string path :
  (snd (main stdout_encodes encode mkdtemp fs string path) = 0%Z <->
   snd (search stdout_encodes encode mkdtemp path path string (fs path)
               initial) = Ok tt) /\
  (snd (main stdout_encodes encode mkdtemp fs string path) = 0%Z \/
   snd (main stdout_encodes encode mkdtemp fs string path) = 1%Z) /\
  Forall (fun l => tint l <> RED)
         (stdout (fst (main stdout_encodes encode mkdtemp fs string path))) /\
  main stdout_encodes encode mkdtemp (fun _ => None) string path =
    if stdout_encodes (render_line (Line Plain 0 (Entering path)))
    then (State 0 [] [Line Plain 0 (Entering path)] 0 [], 0%Z)
    else (initial, 1%Z).
Proof.
  split; [|split; [|split]].
  - unfold main.
    destruct (search stdout_encodes encode mkdtemp path path string (fs path)
                     initial)
      as [st' [[]|e]]; simpl; split; intros H;
      try reflexivity; discriminate H.
  - unfold main.
    destruct (search stdout_encodes encode mkdtemp path path string (fs path)
                     initial)
      as [st' [u|e]]; simpl; auto.
  - destruct (search_coherent stdout_encodes encode mkdtemp string path path
                              (fs path) initial)
      as (out & fp & cl & (Ho & _) & (_ & _ & Hr)).
    unfold main.
    destruct (search stdout_encodes encode mkdtemp path path string (fs path)
                     initial)
      as [st' [u|e]]; simpl in *; rewrite Ho; exact Hr.
  - unfold main, search, bind, info, print, ret, initial.
    change (LOG_LEVEL <=? 1)%Z with true. cbv iota. simpl INDENT_LEVEL.
    destruct (stdout_encodes (render_line (Line Plain 0 (Entering path))));
      reflexivity.
Qed.

(** C4 as stated fails: with no directory at the root path the run prints
    its first line, reports no error and exits with status 0. *)
Lemma C4_missing_root_exits_zero :
  main utf8_stdout codec scratch (fun _ => None) (py "xyz42") root =
    (State 0 [] [Line Plain 0 (Entering root)] 0 [], 0%Z).
Proof. reflexivity. Qed.

(** ** Extraction failures *)

(** Whatever the extraction of a zip archive raises leaves [handle_zip]:
    nothing is caught and no warning is printed. *)
Lemma handle_zip_lets_failures_through
      stdout_encodes mkdtemp recurse sp path string f st e :
  printable stdout_encodes (Extracting Zip path) ->
  extractall f = Raise e ->
  snd (handle_zip stdout_encodes mkdtemp recurse sp path string f st) =
    Raise e /\
  stdout (fst (handle_zip stdout_encodes mkdtemp recurse sp path string f
                          st)) =
    stdout st ++ [Line Plain (INDENT_LEVEL st) (Extracting Zip path)].
Proof.
  intros Hp H. unfold handle_zip, bind, info, print, with_TemporaryDirectory,
    lib.
  change (LOG_LEVEL <=? 1)%Z with true. cbv iota. rewrite (Hp Plain).
  simpl. rewrite H. split; reflexivity.
Qed.

(** The failure that [handle_7z] expects is caught: a warning is printed
    and the handler returns. *)
Lemma handle_7z_warns stdout_encodes mkdtemp recurse sp path string f st :
  printable stdout_encodes (Extracting SevenZip path) ->
  printable stdout_encodes (Failed_to_extract SevenZip path) ->
  extractall f = Raise UnsupportedCompressionMethodError ->
  snd (handle_7z stdout_encodes mkdtemp recurse sp path string f st) =
    Ok tt /\
  stdout (fst (handle_7z stdout_encodes mkdtemp recurse sp path string f
                         st)) =
    stdout st ++
    [Line Plain (INDENT_LEVEL st) (Extracting SevenZip path);
     Line YELLOW (INDENT_LEVEL st) (Failed_to_extract SevenZip path)].
Proof.
  intros Hp Hw H.
  unfold handle_7z, bind, info, warn, print, with_TemporaryDirectory, lib.
  change (LOG_LEVEL <=? 1)%Z with true. cbv iota. rewrite (Hp Plain).
  simpl. rewrite H. simpl. rewrite (Hw YELLOW). simpl.
  rewrite <- app_assoc. split; reflexivity.
Qed.

(** C2 is what the sibling handlers do and [handle_zip] does not: it has
    no [try] around the extraction.  With [bad.zip] before [notes.txt] the
    run prints no warning, never comes to [notes.txt] and ends with
    status 1; with a 7z archive that fails in the way [handle_7z] expects,
    the run warns, goes on to [notes.txt] and ends with status 0. *)
Theorem C2_bad_zip_aborts_run :
  let string := py "xyz42" in
  let run := main utf8_stdout codec scratch
                  (fun _ => Some (Dir [bad_zip; notes_txt] [])) string root in
  let run7 := main utf8_stdout codec scratch
                   (fun _ => Some (Dir [bad_7z; notes_txt] [])) string root in
  (snd run = 1%Z /\
   stdout (fst run) =
     [Line Plain 0 (Entering root);
      Line Plain 1 (Extracting Zip (root // py "bad.zip"))] /\
   encountered (calls (fst run)) = [root // py "bad.zip"]) /\
  (snd run7 = 0%Z /\
   stdout (fst run7) =
     [Line Plain 0 (Entering root);
      Line Plain 1 (Extracting SevenZip (root // py "bad.7z"));
      Line YELLOW 1 (Failed_to_extract SevenZip (root // py "bad.7z"));
      Line GREEN 1
           (Found_with_encoding string (root // py "notes.txt") UTF_8)] /\
   encountered (calls (fst run7)) =
     [root // py "bad.7z"; root // py "notes.txt"]).
Proof. vm_compute. repeat split. Qed.

(** ** The handlers of plain files *)

Lemma printed_nil (st : state) : printed [] st = st.
Proof. destruct st. unfold printed. simpl. rewrite app_nil_r. reflexivity. Qed.

Lemma called_nil (st : state) : called [] st = st.
Proof. destruct st. unfold called. simpl. rewrite app_nil_r. reflexivity. Qed.

Lemma called_called (c1 c2 : list call) (st : state) :
  called c2 (called c1 st) = called (c1 ++ c2) st.
Proof. unfold called. simpl. rewrite app_assoc. reflexivity. Qed.

Lemma priority_order :
  map priority BINARY_TEXT_ENCODINGS =
  seq 0 (List.length BINARY_TEXT_ENCODINGS).
Proof. reflexivity. Qed.

Lemma handle_bin_loop_run stdout_encodes encode path string data encodings :
  (forall enc,
     printable stdout_encodes (Found_with_encoding string path enc)) ->
  forall st,
  handle_bin_loop stdout_encodes encode path string data encodings st =
  (printed (bin_lines string path (INDENT_LEVEL st)
              (scan_encodings encode string data encodings))
     (called (map Encode (tried_encodings encode string data encodings)) st),
   bin_result (scan_encodings encode string data encodings)).
Proof.
  intros Hp.
  induction encodings as [|enc rest IH]; intros st; simpl.
  - rewrite called_nil, printed_nil. reflexivity.
  - unfold bind at 1. unfold lib at 1.
    destruct (encode enc string) as [needle|e]; simpl.
    + destruct (bytes_in needle data); simpl.
      * unfold bind, success, print. simpl INDENT_LEVEL.
        rewrite (Hp enc GREEN). reflexivity.
      * rewrite IH. simpl. unfold printed, called. simpl.
        rewrite <- app_assoc. reflexivity.
    + unfold printed, called. simpl. rewrite app_nil_r. reflexivity.
Qed.

Lemma handle_bin_run stdout_encodes encode sp path string f st :
  (forall enc,
     printable stdout_encodes (Found_with_encoding string path enc)) ->
  handle_bin stdout_encodes encode sp path string f st =
  match read_bytes f with
  | Ok data =>
      (printed (bin_lines string path (INDENT_LEVEL st)
                  (scan_encodings encode string data BINARY_TEXT_ENCODINGS))
         (called (Open_rb path ::
                  map Encode (tried_encodings encode string data
                                              BINARY_TEXT_ENCODINGS)) st),
       bin_result (scan_encodings encode string data BINARY_TEXT_ENCODINGS))
  | Raise e => (called [Open_rb path] st, Raise e)
  end.
Proof.
  intros Hp. unfold handle_bin, bind. unfold lib at 1.
  destruct (read_bytes f) as [data|e]; [|reflexivity].
  rewrite (handle_bin_loop_run _ _ _ _ _ _ Hp). unfold printed, called.
  simpl. rewrite <- app_assoc. reflexivity.
Qed.

(** The result of [handle_bin] does not depend on the state. *)
Lemma handle_bin_result stdout_encodes encode sp path string f st st' :
  (forall enc,
     printable stdout_encodes (Found_with_encoding string path enc)) ->
  snd (handle_bin stdout_encodes encode sp path string f st) =
  snd (handle_bin stdout_encodes encode sp path string f st').
Proof.
  intros Hp. rewrite !(handle_bin_run _ _ _ _ _ _ _ Hp).
  destruct (read_bytes f); reflexivity.
Qed.

(** C9: when the bytes of the file are no valid text, that is when
    reading it in text mode raises [UnicodeDecodeError], [handle_text]
    returns [False]: it raises nothing and prints nothing, and whatever
    follows it runs. *)
Theorem C9_decode_failure_is_no_match stdout_encodes sp path string f st :
  read_text f = Raise UnicodeDecodeError ->
  handle_text stdout_encodes sp path string f st =
    (called [Open_r path] st, Ok false) /\
  forall (A : Type) (k : bool -> M A),
    bind (handle_text stdout_encodes sp path string f) k st =
    k false (called [Open_r path] st).
Proof.
  intros H. unfold bind, handle_text. rewrite H. split; reflexivity.
Qed.

Lemma C9_witness :
  read_text blob_bin = Raise UnicodeDecodeError /\
  handle_text utf8_stdout (root // name blob_bin) (root // name blob_bin)
              (py "xyz42") blob_bin initial =
    (called [Open_r (root // name blob_bin)] initial, Ok false).
Proof.
  split; [reflexivity|].
  apply (C9_decode_failure_is_no_match utf8_stdout
           (root // name blob_bin) (root // name blob_bin) (py "xyz42")
           blob_bin initial).
  reflexivity.
Defined.

(** ** Binary matching *)

Lemma returns_match_scan stdout_encodes encode sp path S f B st E :
  (forall enc, printable stdout_encodes (Found_with_encoding S path enc)) ->
  read_bytes f = Ok B ->
  returns_match (handle_bin stdout_encodes encode sp path S f st) st S path E
  <-> scan_encodings encode S B BINARY_TEXT_ENCODINGS = Ok (Some E).
Proof.
  intros Hp HB. rewrite (handle_bin_run _ _ _ _ _ _ _ Hp), HB.
  cbv beta iota.
  generalize (scan_encodings encode S B BINARY_TEXT_ENCODINGS). intros r.
  unfold returns_match, printed, called.
  destruct r as [[E0|]|e]; simpl; split.
  - intros [_ H]. apply app_inv_head in H. injection H as ->. reflexivity.
  - intros H. injection H as ->. split; reflexivity.
  - intros [H _]. discriminate H.
  - intros H. discriminate H.
  - intros [H _]. discriminate H.
  - intros H. discriminate H.
Qed.

Section Scan.
Variable encode : encoding -> pystr -> outcome bytes.
Variables (S : pystr) (B : bytes).
Hypothesis nested : forall E E',
  priority E' < priority E -> encodable encode E S -> encodable encode E' S.

Ltac earlier_matches Hearlier X :=
  exfalso; apply (Hearlier X);
  [ simpl; lia
  | eexists; split; [eassumption | apply bytes_in_spec; eassumption] ].

Ltac earlier_fails E X :=
  exfalso;
  assert (encodable encode X S) as [x Hx]
    by (apply (nested E X); [simpl; lia | unfold encodable; eauto]);
  congruence.

Lemma scan_first_match (E : encoding) :
  scan_encodings encode S B BINARY_TEXT_ENCODINGS = Ok (Some E) <->
  matches_under encode E S B /\
  forall E', priority E' < priority E -> ~ matches_under encode E' S B.
Proof.
  unfold matches_under. simpl.
  destruct (encode UTF_8 S) as [n1|e1] eqn:H1;
    [destruct (bytes_in n1 B) eqn:M1;
     [|destruct (encode EUC_JP S) as [n2|e2] eqn:H2;
       [destruct (bytes_in n2 B) eqn:M2;
        [|destruct (encode Shift_JIS S) as [n3|e3] eqn:H3;
          [destruct (bytes_in n3 B) eqn:M3|]]|]]|];
    (split;
     [ intros H;
       first
         [ discriminate H
         | injection H as <-; split;
           [ eexists; split; [eassumption | apply bytes_in_spec; assumption]
           | intros E' Hlt [n' [He Hs]]; apply bytes_in_spec in Hs;
             destruct E'; simpl in Hlt; try lia; congruence ] ]
     | intros [[n [He Hs]] Hearlier]; apply bytes_in_spec in Hs;
       destruct E;
       first [ reflexivity
             | congruence
             | earlier_matches Hearlier UTF_8
             | earlier_matches Hearlier EUC_JP
             | earlier_fails EUC_JP UTF_8
             | earlier_fails Shift_JIS UTF_8
             | earlier_fails Shift_JIS EUC_JP ] ]).
Qed.

Lemma scan_some_match :
  (exists E, scan_encodings encode S B BINARY_TEXT_ENCODINGS = Ok (Some E))
  <-> exists E, matches_under encode E S B.
Proof.
  split.
  - intros [E H]. exists E. apply scan_first_match in H. apply H.
  - intros [E [n [He Hs]]]. apply bytes_in_spec in Hs. simpl.
    destruct (encode UTF_8 S) as [n1|e1] eqn:H1;
    [destruct (bytes_in n1 B) eqn:M1;
     [|destruct (encode EUC_JP S) as [n2|e2] eqn:H2;
       [destruct (bytes_in n2 B) eqn:M2;
        [|destruct (encode Shift_JIS S) as [n3|e3] eqn:H3;
          [destruct (bytes_in n3 B) eqn:M3|]]|]]|];
      try (eexists; reflexivity);
      destruct E;
      first [ congruence
            | earlier_fails EUC_JP UTF_8
            | earlier_fails Shift_JIS UTF_8
            | earlier_fails Shift_JIS EUC_JP ].
Qed.
End Scan.



(** ** Plain files in the loop of [search] *)

Section Speakable.
Variable stdout_encodes : pystr -> bool.
Variables (string : pystr) (p : Path).
Hypothesis can_say : speakable stdout_encodes string p.

Lemma speakable_name : printable stdout_encodes (Found_in_filename string p).
Proof. apply can_say. simpl. tauto. Qed.

Lemma speakable_text : printable stdout_encodes (Found_in string p).
Proof. apply can_say. simpl. tauto. Qed.

Lemma speakable_bin enc :
  printable stdout_encodes (Found_with_encoding string p enc).
Proof. apply can_say. destruct enc; simpl; tauto. Qed.

Lemma speakable_extracting fmt : printable stdout_encodes (Extracting fmt p).
Proof. apply can_say. destruct fmt; simpl; tauto. Qed.

Lemma speakable_failed fmt :
  printable stdout_encodes (Failed_to_extract fmt p).
Proof. apply can_say. destruct fmt; simpl; tauto. Qed.
End Speakable.

Lemma handle_text_run stdout_encodes sp path string f st :
  printable stdout_encodes (Found_in string path) ->
  handle_text stdout_encodes sp path string f st =
  (printed (text_lines string path (INDENT_LEVEL st) f)
           (called [Open_r path] st),
   text_result string f).
Proof.
  intros Hp. unfold handle_text, text_lines, text_result, lib.
  destruct (read_text f) as [data|e].
  - destruct (str_in string data).
    + unfold bind, success, print. simpl INDENT_LEVEL.
      rewrite (Hp GREEN). reflexivity.
    + rewrite printed_nil. reflexivity.
  - rewrite printed_nil. destruct e; reflexivity.
Qed.

Lemma handle_bin_run' stdout_encodes encode sp path string f st :
  (forall enc,
     printable stdout_encodes (Found_with_encoding string path enc)) ->
  handle_bin stdout_encodes encode sp path string f st =
  (printed (bin_lines string path (INDENT_LEVEL st)
                      (bin_outcome encode string f))
           (called (bin_calls encode string path f) st),
   bin_result (bin_outcome encode string f)).
Proof.
  intros Hp. rewrite (handle_bin_run _ _ _ _ _ _ _ Hp).
  unfold bin_outcome, bin_calls.
  destruct (read_bytes f) as [data|e]; [reflexivity|].
  simpl. rewrite printed_nil. reflexivity.
Qed.

(** A file with none of the four signatures, about which the standard
    output can print every line: what handling it adds and how it ends. *)
Lemma search_file_other stdout_encodes encode mkdtemp search sp root string
      f st :
  speakable stdout_encodes string (root // name f) ->
  is_tarfile f = Ok false -> is_zipfile f = Ok false ->
  is_7zfile f = Ok false -> is_rarfile f = Ok false ->
  let p := root // name f in
  let r := bin_outcome encode string f in
  let run :=
    search_file stdout_encodes encode mkdtemp search sp root string f st in
  stdout (fst run) =
    stdout st ++ name_lines string (INDENT_LEVEL st) p ++
    bin_lines string p (INDENT_LEVEL st + 1) r ++
    match r with
    | Ok None => text_lines string p (INDENT_LEVEL st + 1) f
    | _ => []
    end /\
  calls (fst run) =
    calls st ++ all_probes p ++ bin_calls encode string p f ++
    match r with
    | Ok None => [Open_r p]
    | _ => []
    end /\
  found_paths (fst run) = found_paths st ++ name_paths string p /\
  snd run =
    match r with
    | Ok (Some _) => Ok tt
    | Ok None =>
        match text_result string f with
        | Ok _ => Ok tt
        | Raise e => Raise e
        end
    | Raise e => Raise e
    end.
Proof.
  intros Hsay Ht Hz Hs Hr p r run. subst run.
  pose proof (speakable_name _ _ _ Hsay) as Hname.
  pose proof (speakable_text _ _ _ Hsay) as Htext.
  pose proof (speakable_bin _ _ _ Hsay) as Hbin.
  fold p in Hname, Htext, Hbin.
  destruct (search_file stdout_encodes encode mkdtemp search sp root string
                        f st)
    as [st' res] eqn:Erun.
  unfold search_file in Erun. fold p in Erun.
  rewrite Ht, Hz, Hs, Hr in Erun.
  unfold name_lines, name_paths, all_probes.
  destruct (str_in string (str p));
    cbv beta iota
        delta [bind success print found_paths_append indent_by lib ret
               INDENT_LEVEL found_paths stdout tempdirs calls] in Erun;
    rewrite ?(Hname GREEN) in Erun;
    cbv beta iota
        delta [bind success print found_paths_append indent_by lib ret
               INDENT_LEVEL found_paths stdout tempdirs calls] in Erun;
    rewrite (handle_bin_run' _ _ _ _ _ _ _ Hbin) in Erun; fold r in Erun;
    (destruct r as [[enc|]|e];
     cbv beta iota
         delta [bin_result negb bin_lines printed called
                INDENT_LEVEL found_paths stdout tempdirs calls] in Erun;
     [ | rewrite (handle_text_run _ _ _ _ _ _ Htext) in Erun;
         destruct (text_result string f);
         cbv beta iota
             delta [printed called
                    INDENT_LEVEL found_paths stdout tempdirs calls]
           in Erun | ]);
    injection Erun as <- <-; simpl;
    rewrite <- ?app_assoc; simpl; rewrite ?app_nil_r; auto.
Qed.
(** ** Classification and routing *)

(** C8: the [if]/[elif] chain of [search] is the classification in the
    fixed order Tar, Zip, SevenZip, Rar, first match wins, followed by the
    routing on the result; a later predicate is consulted only when every
    earlier one answered no, so a file that satisfies an earlier predicate
    is never handled by a later handler; with none holding the file is
    Other. *)
Theorem C8_first_matching_format
        stdout_encodes encode mkdtemp search sp root string f st :
  search_file stdout_encodes encode mkdtemp search sp root string f st =
    ((if str_in string (str (root // name f)) then
        success stdout_encodes (Found_in_filename string (root // name f)) ;;
        found_paths_append (str (root // name f))
      else ret tt) ;;
     indent_by 1 ;;
     (c <- classify_spec (root // name f) f ;;
      route_spec stdout_encodes encode mkdtemp search c (sp // name f)
                 (root // name f) string f) ;;
     indent_by (-1)) st /\
  (snd (classify_spec (root // name f) f st) = Ok (Some Tar) <->
   is_tarfile f = Ok true) /\
  (snd (classify_spec (root // name f) f st) = Ok (Some Zip) <->
   is_tarfile f = Ok false /\ is_zipfile f = Ok true) /\
  (snd (classify_spec (root // name f) f st) = Ok (Some SevenZip) <->
   is_tarfile f = Ok false /\ is_zipfile f = Ok false /\
   is_7zfile f = Ok true) /\
  (snd (classify_spec (root // name f) f st) = Ok (Some Rar) <->
   is_tarfile f = Ok false /\ is_zipfile f = Ok false /\
   is_7zfile f = Ok false /\ is_rarfile f = Ok true) /\
  (snd (classify_spec (root // name f) f st) = Ok None <->
   is_tarfile f = Ok false /\ is_zipfile f = Ok false /\
   is_7zfile f = Ok false /\ is_rarfile f = Ok false).
Proof.
  unfold search_file, classify_spec, CLASSIFIERS, classify_in, probe_of.
  split.
  - unfold bind, lib, ret.
    destruct (str_in string (str (root // name f)));
      cbv beta iota;
      destruct (is_tarfile f) as [[|]|e1]; try reflexivity;
      destruct (is_zipfile f) as [[|]|e2]; try reflexivity;
      destruct (is_7zfile f) as [[|]|e3]; try reflexivity;
      destruct (is_rarfile f) as [[|]|e4]; reflexivity.
  - unfold bind, lib, ret.
    destruct (is_tarfile f) as [[|]|e1];
      [ | destruct (is_zipfile f) as [[|]|e2];
          [ | destruct (is_7zfile f) as [[|]|e3];
              [ | destruct (is_rarfile f) as [[|]|e4] | ] | ] | ];
      simpl; repeat split; intros; try discriminate;
      repeat match goal with
             | H : _ /\ _ |- _ => destruct H
             end;
      try discriminate; reflexivity.
Qed.

(** ** Content checks on a file that is no archive *)

Lemma text_lines_content string p i f :
  content_matches (text_lines string p i f) = text_lines string p i f /\
  List.length (text_lines string p i f) <= 1.
Proof.
  unfold text_lines. destruct (read_text f) as [data|e]; simpl; auto.
  destruct (str_in string data); simpl; auto.
Qed.

Lemma Open_r_not_bin_call encode string p f :
  ~ In (Open_r p) (tl (bin_calls encode string p f)).
Proof.
  unfold bin_calls. cbn [tl]. destruct (read_bytes f) as [data|e].
  - intros H. apply in_map_iff in H. destruct H as (enc & H & _).
    discriminate H.
  - intros [].
Qed.



(** ** The empty search string *)

Lemma filter_all (A : Type) (keep : A -> bool) (l : list A) :
  (forall x, keep x = true) -> filter keep l = l.
Proof.
  intros H. induction l as [|x l IH]; simpl; [reflexivity|].
  rewrite H, IH. reflexivity.
Qed.



(** ** Errors while classifying and while matching *)

(** C5, as the code has it, for a file about which the standard output
    can print every line: [search] has no handler around the probes, so
    an exception raised by the first probe that does not answer leaves
    [search_file] as it is, and the file is not taken for Other; of the
    errors of the content checks, the decode failure of the text read is
    the one that is turned into "no match": after a binary check that
    found nothing, a file that cannot be decoded ends the handling of the
    file normally, with nothing printed beyond the filename match. *)
Theorem C5_errors_of_probes_and_of_text_read
        stdout_encodes encode mkdtemp search sp root string f st :
  speakable stdout_encodes string (root // name f) ->
  let p := root // name f in
  let run :=
    search_file stdout_encodes encode mkdtemp search sp root string f st in
  (forall e,
     is_tarfile f = Raise e \/
     (is_tarfile f = Ok false /\ is_zipfile f = Raise e) \/
     (is_tarfile f = Ok false /\ is_zipfile f = Ok false /\
      is_7zfile f = Raise e) \/
     (is_tarfile f = Ok false /\ is_zipfile f = Ok false /\
      is_7zfile f = Ok false /\ is_rarfile f = Raise e) ->
     snd run = Raise e /\
     stdout (fst run) = stdout st ++ name_lines string (INDENT_LEVEL st) p) /\
  (is_tarfile f = Ok false -> is_zipfile f = Ok false ->
   is_7zfile f = Ok false -> is_rarfile f = Ok false ->
   snd (handle_bin stdout_encodes encode (sp // name f) p string f st) =
     Ok false ->
   read_text f = Raise UnicodeDecodeError ->
   snd run = Ok tt /\
   stdout (fst run) = stdout st ++ name_lines string (INDENT_LEVEL st) p).
Proof.
  intros Hsay p run. split.
  - intros e H. subst run.
    pose proof (speakable_name _ _ _ Hsay) as Hname. fold p in Hname.
    destruct (search_file stdout_encodes encode mkdtemp search sp root string
                          f st)
      as [st' res] eqn:Erun.
    unfold search_file in Erun. fold p in Erun. unfold name_lines.
    destruct H as [H1 | [(H1 & H2) | [(H1 & H2 & H3) | (H1 & H2 & H3 & H4)]]];
      rewrite ?H1, ?H2, ?H3, ?H4 in Erun;
      destruct (str_in string (str p));
      cbv beta iota
          delta [bind success print found_paths_append indent_by lib ret
                 INDENT_LEVEL found_paths stdout tempdirs calls] in Erun;
      rewrite ?(Hname GREEN) in Erun;
      cbv beta iota
          delta [bind success print found_paths_append indent_by lib ret
                 INDENT_LEVEL found_paths stdout tempdirs calls] in Erun;
      injection Erun as <- <-; simpl;
      rewrite ?app_nil_r; split; reflexivity.
  - intros Ht Hz Hs Hr Hbin Htext.
    destruct (search_file_other stdout_encodes encode mkdtemp search sp root
                                string f st Hsay Ht Hz Hs Hr)
      as (Hout & _ & _ & Hres).
    fold p in Hout. fold run in Hout, Hres.
    rewrite (handle_bin_run' _ _ _ _ _ _ _ (speakable_bin _ _ _ Hsay))
      in Hbin.
    simpl in Hbin.
    destruct (bin_outcome encode string f) as [[enc|]|e];
      try discriminate Hbin.
    unfold text_result in Hres. unfold text_lines in Hout.
    rewrite Htext in Hres, Hout. simpl in Hout.
    rewrite app_nil_r in Hout. split; assumption.
Qed.

Lemma C5_witness :
  snd (search_file utf8_stdout codec scratch
         (fun sp tempdir s d =>
            search utf8_stdout codec scratch sp tempdir s (Some d))
         root root (py "xyz42") blob_bin initial) = Ok tt.
Proof.
  apply (C5_errors_of_probes_and_of_text_read utf8_stdout codec scratch
           (fun sp tempdir s d =>
              search utf8_stdout codec scratch sp tempdir s (Some d))
           root root (py "xyz42") blob_bin initial
           (utf8_speakable (py "xyz42") (root // name blob_bin) eq_refl));
    reflexivity.
Defined.

(** C5 as stated fails.  A file that may not be opened makes the tar probe
    raise: the run ends there with status 1 and never comes to
    [notes.txt], which has the string.  And a search string that EUC-JP
    cannot encode (U+1F600) makes the binary check raise on the first file
    that does not have it in UTF-8. *)
Lemma C5_errors_end_the_run :
  let run := main utf8_stdout codec scratch
                  (fun _ => Some (Dir [locked; notes_txt] []))
                  (py "xyz42") root in
  let run' := main utf8_stdout codec scratch
                   (fun _ => Some (Dir [a_txt; notes_txt] []))
                   [128512%N] root in
  (snd run = 1%Z /\
   came_to (calls (fst run)) = [root // py "locked"] /\
   encountered (calls (fst run)) = [root // py "locked"] /\
   stdout (fst run) = [Line Plain 0 (Entering root)]) /\
  (snd run' = 1%Z /\
   calls (fst run') =
     Listed root (py "a.txt") :: all_probes (root // py "a.txt") ++
     [Open_rb (root // py "a.txt"); Encode UTF_8; Encode EUC_JP] /\
   stdout (fst run') = [Line Plain 0 (Entering root)]).
Proof. vm_compute. repeat split. Qed.
(** * Further properties of the traversal *)

(** ** Indentation *)

(** X1: a call of [search] that returns leaves INDENT_LEVEL as it found
    it: every [INDENT_LEVEL += 1] of the loop is undone by the
    [INDENT_LEVEL -= 1] after the handling of the file, through all the
    archives searched on the way. *)
Theorem search_restores_INDENT_LEVEL
        stdout_encodes encode mkdtemp sp path string tree st :
  snd (search stdout_encodes encode mkdtemp sp path string tree st) = Ok tt ->
  INDENT_LEVEL
    (fst (search stdout_encodes encode mkdtemp sp path string tree st)) =
  INDENT_LEVEL st.
Proof.
  intros H.
  destruct (search_tidy stdout_encodes encode mkdtemp string sp path tree st)
    as (E & _).
  apply E. rewrite H. reflexivity.
Qed.

Lemma search_restores_INDENT_LEVEL_witness :
  INDENT_LEVEL
    (fst (search utf8_stdout codec scratch root root (py "xyz42")
                 (Some nested_tree) initial)) = INDENT_LEVEL initial.
Proof.
  apply (search_restores_INDENT_LEVEL utf8_stdout codec scratch root root
           (py "xyz42") (Some nested_tree) initial).
  vm_compute. reflexivity.
Defined.

(** X2: however a call of [search] ends, INDENT_LEVEL is not below where
    it started, and no line the call prints is indented less than the
    level it started at. *)
Theorem search_never_outdents
        stdout_encodes encode mkdtemp sp path string tree st :
  (INDENT_LEVEL st <=
   INDENT_LEVEL
     (fst (search stdout_encodes encode mkdtemp sp path string tree st)))%Z /\
  exists out,
    stdout
      (fst (search stdout_encodes encode mkdtemp sp path string tree st)) =
      stdout st ++ out /\
    Forall (fun l => (INDENT_LEVEL st <= indent l)%Z) out.
Proof.
  destruct (search_tidy stdout_encodes encode mkdtemp string sp path tree st)
    as (_ & L & out & cl & n & Ho & _ & _ & Fi & _).
  split; [exact L|]. exists out. split; assumption.
Qed.

(** ** Semantic paths *)

(** X3: the semantic path only grows: every "Entering" line printed by a
    call of [search] names the semantic path of the call or a path below
    it. *)
Theorem search_enters_below_semantic_path
        stdout_encodes encode mkdtemp sp path string tree st :
  exists out,
    stdout
      (fst (search stdout_encodes encode mkdtemp sp path string tree st)) =
      stdout st ++ out /\
    Forall (below sp) (entered out).
Proof.
  destruct (search_tidy stdout_encodes encode mkdtemp string sp path tree st)
    as (_ & _ & out & cl & n & Ho & _ & _ & _ & Fe & _).
  exists out. split; assumption.
Qed.

(** ** Scratch directories *)

(** X4: every archive a run unpacks gets a scratch directory of its own:
    the extractions of the run go, in order, into the scratch directories
    created during the run, one each, and nothing else creates one. *)
Theorem search_unpacks_into_fresh_scratch_dirs
        stdout_encodes encode mkdtemp sp path string tree st :
  exists cl n,
    calls
      (fst (search stdout_encodes encode mkdtemp sp path string tree st)) =
      calls st ++ cl /\
    tempdirs
      (fst (search stdout_encodes encode mkdtemp sp path string tree st)) =
      tempdirs st + n /\
    scratch_dirs cl = map mkdtemp (seq (tempdirs st) n).
Proof.
  destruct (search_tidy stdout_encodes encode mkdtemp string sp path tree st)
    as (_ & _ & out & cl & n & _ & Hc & Ht & _ & _ & Fs & _).
  exists cl, n. repeat split; assumption.
Qed.

(** X5: a run hands to the libraries and to [open] only paths under the
    directory it was asked to search or under a scratch directory that it
    unpacked an archive into, and the files the walk lists lie there
    too. *)
Theorem search_stays_under_root_and_scratch
        stdout_encodes encode mkdtemp sp path string tree st :
  exists cl,
    calls
      (fst (search stdout_encodes encode mkdtemp sp path string tree st)) =
      calls st ++ cl /\
    Forall (fun p => below path p \/
                     exists tempdir,
                       In tempdir (scratch_dirs cl) /\ below tempdir p)
           (touched cl).
Proof.
  destruct (search_tidy stdout_encodes encode mkdtemp string sp path tree st)
    as (_ & _ & out & cl & n & _ & Hc & _ & _ & _ & Fs & Fp).
  exists cl. split; [exact Hc|].
  eapply Forall_impl; [|exact Fp]. intros p [H | (k & Hk & H)].
  - left. exact H.
  - right. exists (mkdtemp k). split; [|exact H].
    rewrite Fs. apply in_map. apply in_seq. lia.
Qed.

(** ** Archives that fail to unpack *)

Ltac run_archive_failure Hsay Hr Hc He p Erun :=
  pose proof (speakable_name _ _ _ Hsay) as Hname;
  pose proof (speakable_extracting _ _ _ Hsay) as Hextr;
  pose proof (speakable_failed _ _ _ Hsay) as Hfail;
  fold p in Hname, Hextr, Hfail;
  unfold search_file in Erun; fold p in Erun;
  match goal with
  | fmt : archive_format |- _ =>
      destruct fmt; simpl in Hr, Hc |- *
  end;
  repeat match type of Hr with
         | _ /\ _ =>
             let H := fresh "Hp" in
             destruct Hr as [H Hr]; rewrite H in Erun
         end;
  rewrite Hr in Erun;
  cbv beta iota
      delta [handle_tar handle_zip handle_7z handle_rar
             with_TemporaryDirectory bind info warn success print
             found_paths_append indent_by lib ret LOG_LEVEL Z.leb Z.compare
             Pos.compare Pos.compare_cont
             INDENT_LEVEL found_paths stdout tempdirs calls] in Erun;
  rewrite ?(Hname GREEN), ?(Hextr _ Plain), ?(Hfail _ YELLOW), He in Erun;
  cbv beta iota
      delta [INDENT_LEVEL found_paths stdout tempdirs calls] in Erun;
  unfold name_lines.

(** X6: when the extraction of an archive raises the exception that the
    handler of its format expects (EOFError for tar,
    UnsupportedCompressionMethodError for 7z, BadRarFile for rar), and the
    standard output can print the lines about the archive, the handling
    of the file prints the warning and returns with the indentation
    restored; the archive is not searched and its own bytes and text are
    never read. *)
Theorem expected_extraction_failure_is_skipped
        stdout_encodes encode mkdtemp recurse sp root string f st fmt e :
  speakable stdout_encodes string (root // name f) ->
  routed_to fmt f -> extractall f = Raise e -> caught fmt = Some e ->
  let p := root // name f in
  let run :=
    search_file stdout_encodes encode mkdtemp recurse sp root string f st in
  snd run = Ok tt /\
  stdout (fst run) =
    stdout st ++ name_lines string (INDENT_LEVEL st) p ++
    [Line Plain (INDENT_LEVEL st + 1) (Extracting fmt p);
     Line YELLOW (INDENT_LEVEL st + 1) (Failed_to_extract fmt p)] /\
  calls (fst run) =
    calls st ++ probes_through fmt p ++
    [Extractall fmt p (mkdtemp (tempdirs st))] /\
  INDENT_LEVEL (fst run) = INDENT_LEVEL st.
Proof.
  intros Hsay Hr He Hc p run. subst run.
  destruct (search_file stdout_encodes encode mkdtemp recurse sp root string
                        f st)
    as [st' res] eqn:Erun.
  run_archive_failure Hsay Hr Hc He p Erun;
    try discriminate Hc; injection Hc as <-;
    destruct (str_in string (str p));
    do 3 (cbv beta iota
              delta [INDENT_LEVEL found_paths stdout tempdirs calls] in Erun;
          rewrite ?(Hname GREEN), ?(Hextr _ Plain), ?(Hfail _ YELLOW)
            in Erun);
    cbv beta iota
        delta [INDENT_LEVEL found_paths stdout tempdirs calls] in Erun;
    injection Erun as <- <-; simpl;
    rewrite <- ?app_assoc; simpl;
    (repeat split; try reflexivity; fold (INDENT_LEVEL st); lia).
Qed.

Lemma expected_extraction_failure_is_skipped_witness :
  snd (search_file utf8_stdout codec scratch
         (fun sp tempdir s d =>
            search utf8_stdout codec scratch sp tempdir s (Some d))
         root root (py "xyz42") bad_7z initial) = Ok tt.
Proof.
  apply (expected_extraction_failure_is_skipped utf8_stdout codec scratch
           (fun sp tempdir s d =>
              search utf8_stdout codec scratch sp tempdir s (Some d))
           root root (py "xyz42") bad_7z initial SevenZip
           UnsupportedCompressionMethodError).
  - apply utf8_speakable. reflexivity.
  - simpl. repeat split.
  - reflexivity.
  - reflexivity.
Defined.

(** X7: any other exception of the extraction is not caught (for a zip
    archive: any exception at all; for a tar archive, for one,
    [tarfile.ReadError]): with a standard output that can print the lines
    about the archive, it leaves the handling of the file with no warning
    printed, after the "Extracting" line, and the indentation stays one
    level in. *)
Theorem unexpected_extraction_failure_propagates
        stdout_encodes encode mkdtemp recurse sp root string f st fmt e :
  speakable stdout_encodes string (root // name f) ->
  routed_to fmt f -> extractall f = Raise e -> caught fmt <> Some e ->
  let p := root // name f in
  let run :=
    search_file stdout_encodes encode mkdtemp recurse sp root string f st in
  snd run = Raise e /\
  stdout (fst run) =
    stdout st ++ name_lines string (INDENT_LEVEL st) p ++
    [Line Plain (INDENT_LEVEL st + 1) (Extracting fmt p)] /\
  calls (fst run) =
    calls st ++ probes_through fmt p ++
    [Extractall fmt p (mkdtemp (tempdirs st))] /\
  INDENT_LEVEL (fst run) = (INDENT_LEVEL st + 1)%Z.
Proof.
  intros Hsay Hr He Hc p run. subst run.
  destruct (search_file stdout_encodes encode mkdtemp recurse sp root string
                        f st)
    as [st' res] eqn:Erun.
  run_archive_failure Hsay Hr Hc He p Erun;
    destruct e; try (exfalso; apply Hc; reflexivity);
    destruct (str_in string (str p));
    do 3 (cbv beta iota
              delta [INDENT_LEVEL found_paths stdout tempdirs calls] in Erun;
          rewrite ?(Hname GREEN), ?(Hextr _ Plain), ?(Hfail _ YELLOW)
            in Erun);
    cbv beta iota
        delta [INDENT_LEVEL found_paths stdout tempdirs calls] in Erun;
    injection Erun as <- <-; simpl;
    rewrite <- ?app_assoc; simpl;
    (repeat split; reflexivity).
Qed.

Lemma unexpected_extraction_failure_propagates_witness :
  snd (search_file utf8_stdout codec scratch
         (fun sp tempdir s d =>
            search utf8_stdout codec scratch sp tempdir s (Some d))
         root root (py "xyz42") bad_tar initial) = Raise TarReadError.
Proof.
  apply (unexpected_extraction_failure_propagates utf8_stdout codec scratch
           (fun sp tempdir s d =>
              search utf8_stdout codec scratch sp tempdir s (Some d))
           root root (py "xyz42") bad_tar initial Tar TarReadError).
  - apply utf8_speakable. reflexivity.
  - reflexivity.
  - reflexivity.
  - discriminate.
Defined.

(** ** When the binary check raises *)

Section Scan_raises.
Variable encode : encoding -> pystr -> outcome bytes.
Variables (S : pystr) (B : bytes).

Ltac passed Hearlier X :=
  destruct (Hearlier X) as (n & Hn & Hs);
  [ simpl; lia
  | first [ congruence
          | exfalso; apply Hs; apply bytes_in_spec; congruence ] ].

Lemma scan_raises (e : exn) :
  bin_result (scan_encodings encode S B BINARY_TEXT_ENCODINGS) = Raise e <->
  exists E,
    encode E S = Raise e /\
    forall E', priority E' < priority E ->
               exists n, encode E' S = Ok n /\ ~ Substring n B.
Proof.
  simpl.
  destruct (encode UTF_8 S) as [n1|e1] eqn:H1;
    [destruct (bytes_in n1 B) eqn:M1;
     [|destruct (encode EUC_JP S) as [n2|e2] eqn:H2;
       [destruct (bytes_in n2 B) eqn:M2;
        [|destruct (encode Shift_JIS S) as [n3|e3] eqn:H3;
          [destruct (bytes_in n3 B) eqn:M3|]]|]]|];
    simpl; (split;
     [ intros H; try discriminate H; injection H as <-;
       first [ exists UTF_8; split; [assumption|]
             | exists EUC_JP; split; [assumption|]
             | exists Shift_JIS; split; [assumption|] ];
       intros E' Hlt; destruct E'; simpl in Hlt; try lia;
       eexists; (split; [eassumption|]);
       intros Hs; apply bytes_in_spec in Hs; congruence
     | intros [E [He Hearlier]]; destruct E;
       first [ congruence
             | passed Hearlier UTF_8
             | passed Hearlier EUC_JP ] ]).
Qed.
End Scan_raises.

(** X8: [handle_bin] has no handler around [bytes(string, encoding)]: on
    the bytes [B] of a file, and with a standard output that can print a
    match, it raises exactly when encoding the search string fails under
    some encoding of BINARY_TEXT_ENCODINGS that the loop reaches, that is
    one before which every encoding could encode the string and none of
    the encoded strings is in [B]; the exception is that of the failed
    encoding. *)
Theorem handle_bin_raises_when_encoding_fails
        stdout_encodes encode sp path S f B st e :
  (forall E, printable stdout_encodes (Found_with_encoding S path E)) ->
  read_bytes f = Ok B ->
  snd (handle_bin stdout_encodes encode sp path S f st) = Raise e <->
  exists E,
    encode E S = Raise e /\
    forall E', priority E' < priority E ->
               exists n, encode E' S = Ok n /\ ~ Substring n B.
Proof.
  intros Hp HB. rewrite (handle_bin_run _ _ _ _ _ _ _ Hp), HB.
  cbv beta iota. simpl snd. apply scan_raises.
Qed.

Lemma handle_bin_raises_when_encoding_fails_witness :
  snd (handle_bin utf8_stdout codec root (root // name a_txt) [128512%N]
                  a_txt initial) =
  Raise UnicodeEncodeError.
Proof.
  apply (handle_bin_raises_when_encoding_fails utf8_stdout codec root
           (root // name a_txt) [128512%N] a_txt (b "hello") initial
           UnicodeEncodeError).
  - intros E. apply utf8_printable. destruct E; reflexivity.
  - reflexivity.
  - exists EUC_JP. split; [reflexivity|].
    intros E' Hlt. destruct E'; simpl in Hlt; try lia.
    eexists. split; [vm_compute; reflexivity|].
    intros Hs. apply bytes_in_spec in Hs. discriminate Hs.
Defined.

(** ** Content matches of a plain file *)

(** X9: a file with none of the four signatures, about which the
    standard output can print every line, on which the binary check
    returns [found] and whose text is [data], is handled to the end and
    gets exactly one content line when the binary check found the string
    or the string is in the text, and none otherwise. *)
Theorem plain_file_content_match
        stdout_encodes encode mkdtemp recurse sp root string f st found data :
  speakable stdout_encodes string (root // name f) ->
  is_tarfile f = Ok false -> is_zipfile f = Ok false ->
  is_7zfile f = Ok false -> is_rarfile f = Ok false ->
  snd (handle_bin stdout_encodes encode (sp // name f) (root // name f)
                  string f st) =
    Ok found ->
  read_text f = Ok data ->
  let p := root // name f in
  let run :=
    search_file stdout_encodes encode mkdtemp recurse sp root string f st in
  snd run = Ok tt /\
  exists out,
    stdout (fst run) =
      stdout st ++ name_lines string (INDENT_LEVEL st) p ++ out /\
    content_matches out = out /\
    List.length out = if found || str_in string data then 1 else 0.
Proof.
  intros Hsay Ht Hz Hs Hr Hbin Htext p run.
  destruct (search_file_other stdout_encodes encode mkdtemp recurse sp root
                              string f st Hsay Ht Hz Hs Hr)
    as (Hout & _ & _ & Hres).
  fold p in Hout. fold run in Hout, Hres.
  rewrite (handle_bin_run' _ _ _ _ _ _ _ (speakable_bin _ _ _ Hsay)) in Hbin.
  simpl in Hbin.
  unfold text_result in Hres. unfold text_lines in Hout.
  rewrite Htext in Hres, Hout.
  destruct (bin_outcome encode string f) as [[enc|]|e];
    simpl in Hbin; try discriminate Hbin; injection Hbin as <-.
  - split; [exact Hres|]. eexists. split; [exact Hout|].
    split; reflexivity.
  - split; [exact Hres|]. eexists. split; [exact Hout|].
    simpl. destruct (str_in string data); split; reflexivity.
Qed.

Lemma plain_file_content_match_witness :
  snd (search_file utf8_stdout codec scratch
         (fun sp tempdir s d =>
            search utf8_stdout codec scratch sp tempdir s (Some d))
         root root (py "xyz42") notes_txt initial) = Ok tt.
Proof.
  apply (plain_file_content_match utf8_stdout codec scratch
           (fun sp tempdir s d =>
              search utf8_stdout codec scratch sp tempdir s (Some d))
           root root (py "xyz42") notes_txt initial true
           (py "the password is xyz42")
           (utf8_speakable (py "xyz42") (root // name notes_txt) eq_refl)
           eq_refl eq_refl eq_refl eq_refl eq_refl eq_refl).
Defined.

(** ** File names *)

Lemma Substring_nil_l (A : Type) (t : list A) : Substring [] t.
Proof. exists [], t. reflexivity. Qed.

Lemma Substring_nil_r (A : Type) (s : list A) : Substring s [] -> s = [].
Proof.
  intros (l & r & E). destruct l; [|discriminate E].
  destruct s; [reflexivity | discriminate E].
Qed.

Lemma Substring_in_last_joined (s : pystr) (p : Path) :
  Substring s (last p []) -> Substring s (join_segments p).
Proof.
  induction p as [|seg rest IH]; simpl; [auto|].
  destruct rest as [|seg' rest']; [auto|].
  intros H. destruct (IH H) as (l & r & E).
  exists (seg ++ slash :: l), r. rewrite E, <- app_assoc. reflexivity.
Qed.

Lemma Substring_in_last_segment (s : pystr) (p : Path) :
  Substring s (last p []) -> Substring s (str p).
Proof.
  intros H. destruct p as [|[|c seg] [|seg' rest]];
    try exact (Substring_in_last_joined s _ H);
    apply Substring_nil_r in H; subst s; apply Substring_nil_l.
Qed.

(** Of the files a run came to with the search string in the real path,
    the ones whose match the standard output can print have it. *)
Lemma matched_when_printable stdout_encodes string st st' ok :
  matched stdout_encodes string st st' ok ->
  exists out cl,
    stdout st' = stdout st ++ out /\
    calls st' = calls st ++ cl /\
    forall p,
      In p (came_to cl) -> str_in string (str p) = true ->
      printable stdout_encodes (Found_in_filename string p) ->
      In p (filename_matches out).
Proof.
  intros (out & cl & pending & Ho & Hc & Hf & _ & Hp).
  exists out, cl. split; [exact Ho|]. split; [exact Hc|].
  intros p Hin Hhit Hprint.
  assert (H : In p (filename_matches out ++ pending)).
  { rewrite <- Hf. apply filter_In. split; assumption. }
  apply in_app_or in H. destruct H as [H | H]; [exact H|].
  destruct Hp as [-> | (q & i & -> & Hq)]; [contradiction H|].
  destruct H as [<- | []]. rewrite (Hprint GREEN i) in Hq. discriminate Hq.
Qed.

(** X10: a file whose own name (the last segment of its path) has the
    search string in it gets a filename match, wherever it lies: in every
    run, each file come to with such a name, and with a match that the
    standard output can print, is among the filename matches printed. *)
Theorem file_name_with_string_is_matched
        stdout_encodes encode mkdtemp string sp path tree st :
  exists out cl,
    stdout (fst (search stdout_encodes encode mkdtemp sp path string tree
                        st)) =
      stdout st ++ out /\
    calls (fst (search stdout_encodes encode mkdtemp sp path string tree
                       st)) =
      calls st ++ cl /\
    forall p,
      In p (came_to cl) -> Substring string (last p []) ->
      printable stdout_encodes (Found_in_filename string p) ->
      In p (filename_matches out).
Proof.
  destruct (matched_when_printable _ _ _ _ _
              (search_matched stdout_encodes string encode mkdtemp sp path
                              tree st))
    as (out & cl & Ho & Hc & H).
  exists out, cl. split; [exact Ho|]. split; [exact Hc|].
  intros p Hin Hs Hprint. apply H; [exact Hin | | exact Hprint].
  apply str_in_spec. apply Substring_in_last_segment. exact Hs.
Qed.
(** ** Directories without archives *)

Lemma came_to_app (c1 c2 : list call) :
  came_to (c1 ++ c2) = came_to c1 ++ came_to c2.
Proof. unfold came_to. apply flat_map_app. Qed.

Lemma visits_ret root : visits root [] (ret tt).
Proof.
  intros st. split; [reflexivity|]. exists []. simpl.
  rewrite app_nil_r. repeat split; constructor.
Qed.

Lemma visits_bind root ps1 ps2 (m1 m2 : M unit) :
  visits root ps1 m1 -> visits root ps2 m2 ->
  visits root (ps1 ++ ps2) (m1 ;; m2).
Proof.
  intros H1 H2 st. unfold bind.
  destruct (H1 st) as (R1 & c1 & Hc1 & E1 & S1 & T1).
  destruct (m1 st) as [st1 r1]. simpl in *. subst r1.
  destruct (H2 st1) as (R2 & c2 & Hc2 & E2 & S2 & T2).
  split; [exact R2|]. exists (c1 ++ c2).
  split; [rewrite Hc2, Hc1, app_assoc; reflexivity|].
  split; [rewrite came_to_app, E1, E2; reflexivity|].
  split; [unfold scratch_dirs in *; rewrite flat_map_app, S1, S2;
          reflexivity|].
  unfold touched in *. rewrite flat_map_app. apply Forall_app.
  split; assumption.
Qed.

Lemma visits_below root root' ps (m : M unit) :
  below root root' -> visits root' ps m -> visits root ps m.
Proof.
  intros Hb H st. destruct (H st) as (R & cl & Hc & E & S & T).
  split; [exact R|]. exists cl. repeat split; try assumption.
  eapply Forall_impl; [|exact T]. intros p. apply below_trans, Hb.
Qed.

Lemma bin_calls_plain encode string p f :
  came_to (bin_calls encode string p f) = [] /\
  scratch_dirs (bin_calls encode string p f) = [] /\
  touched (bin_calls encode string p f) = [p].
Proof.
  unfold bin_calls. destruct (read_bytes f) as [data|e]; [|repeat split].
  generalize (tried_encodings encode string data BINARY_TEXT_ENCODINGS).
  intros encs. simpl.
  induction encs as [|enc encs IH]; simpl; [repeat split|exact IH].
Qed.

(** The walk hands over a quiet file and the file is handled. *)
Lemma search_file_quiet stdout_encodes encode mkdtemp recurse sp root string
      f :
  quiet stdout_encodes encode string (root // name f, f) ->
  visits root [root // name f]
         (lib (Listed root (name f)) (Ok tt) ;;
          search_file stdout_encodes encode mkdtemp recurse sp root string
                      f).
Proof.
  intros (Ht & Hz & Hs & Hr & Hsay & Hbin & Htext) st.
  set (st1 := State (INDENT_LEVEL st) (found_paths st) (stdout st)
                    (tempdirs st) (calls st ++ [Listed root (name f)])).
  change ((lib (Listed root (name f)) (Ok tt) ;;
           search_file stdout_encodes encode mkdtemp recurse sp root string
                       f) st)
    with (search_file stdout_encodes encode mkdtemp recurse sp root string f
                      st1).
  destruct (search_file_other stdout_encodes encode mkdtemp recurse sp root
                              string f st1 Hsay Ht Hz Hs Hr)
    as (_ & Hcl & _ & Hres).
  specialize (Hbin (sp // name f) st1).
  specialize (Htext (sp // name f) st1).
  rewrite (handle_bin_run' _ _ _ _ _ _ _ (speakable_bin _ _ _ Hsay)) in Hbin.
  rewrite (handle_text_run _ _ _ _ _ _ (speakable_text _ _ _ Hsay))
    in Htext.
  simpl in Hbin, Htext.
  destruct (bin_calls_plain encode string (root // name f) f)
    as (Bi & Bs & Bt).
  pose proof (below_joinpath root (name f)) as Hp.
  split.
  - rewrite Hres. destruct (bin_outcome encode string f) as [[enc|]|e];
      try reflexivity; [|discriminate Hbin].
    destruct (text_result string f); [reflexivity | discriminate Htext].
  - eexists. split.
    { rewrite Hcl. subst st1. simpl calls. rewrite <- app_assoc.
      reflexivity. }
    unfold scratch_dirs, touched in *.
    rewrite !came_to_app, !flat_map_app, Bs, Bt, Bi.
    destruct (bin_outcome encode string f) as [[enc|]|e]; simpl;
      repeat split; repeat constructor; exact Hp.
Qed.

Lemma search_walk_plain stdout_encodes encode mkdtemp string tree :
  forall sp root,
  Forall (quiet stdout_encodes encode string) (walk_files root tree) ->
  visits root (map fst (walk_files root tree))
         (search_walk stdout_encodes encode mkdtemp sp root string tree).
Proof.
  induction tree as [fs ds _ IHds] using dir_tree_ind.
  intros sp root H. simpl in H |- *.
  apply Forall_app in H. destruct H as [Hfs Hds].
  rewrite map_app. apply visits_bind.
  - clear Hds IHds. induction fs as [|f fs IH]; simpl.
    + apply visits_ret.
    + inversion Hfs as [|x xs Hf Hrest]; subst.
      apply (visits_bind root [root // name f]).
      * apply search_file_quiet. exact Hf.
      * apply IH. exact Hrest.
  - clear Hfs. induction ds as [|[n d] ds IH]; simpl.
    + apply visits_ret.
    + simpl in Hds. apply Forall_app in Hds. destruct Hds as [Hd Hrest].
      inversion IHds as [|x xs IHd IHrest]; subst.
      rewrite map_app. apply visits_bind.
      * apply visits_below with (root' := root // n);
          [apply below_joinpath|].
        apply IHd. exact Hd.
      * apply IH; assumption.
Qed.

(** X11: on a directory that holds no archives and no file that makes a
    content check raise, and with a standard output that can print the
    first line and every line about the files, [search] returns, comes to
    exactly the files of the plain recursive walk of the directory, each
    once and in walk order, unpacks nothing, and hands out no path outside
    the directory. *)
Theorem search_without_archives_is_the_plain_walk
        stdout_encodes encode mkdtemp string sp path tree st :
  printable stdout_encodes (Entering sp) ->
  Forall (quiet stdout_encodes encode string) (walk_files path tree) ->
  snd (search stdout_encodes encode mkdtemp sp path string (Some tree) st) =
    Ok tt /\
  exists cl,
    calls (fst (search stdout_encodes encode mkdtemp sp path string
                       (Some tree) st)) =
      calls st ++ cl /\
    came_to cl = map fst (walk_files path tree) /\
    scratch_dirs cl = [] /\
    Forall (below path) (touched cl).
Proof.
  intros Hsp H. unfold search.
  assert (Hinfo : visits path [] (info stdout_encodes (Entering sp))).
  { intros st0. unfold info, print. change (LOG_LEVEL <=? 1)%Z with true.
    cbv iota. rewrite (Hsp Plain). split; [reflexivity|]. exists []. simpl.
    rewrite app_nil_r. repeat split; constructor. }
  apply (visits_bind path [] _ _ _ Hinfo
           (search_walk_plain stdout_encodes encode mkdtemp string tree sp
                              path H)).
Qed.

Lemma search_without_archives_is_the_plain_walk_witness :
  snd (search utf8_stdout codec scratch root root (py "xyz42")
              (Some plain_tree) initial) = Ok tt.
Proof.
  apply (search_without_archives_is_the_plain_walk utf8_stdout codec scratch
           (py "xyz42") root root plain_tree initial).
  - apply utf8_printable. reflexivity.
  - apply Forall_forall. intros [p f] Hin. simpl in Hin.
    destruct Hin as [E | [E | [E | []]]]; injection E as <- <-;
      (split; [reflexivity|]); (split; [reflexivity|]);
      (split; [reflexivity|]); (split; [reflexivity|]);
      (split; [apply utf8_speakable; reflexivity|]);
      (split; intros sp st;
       [ rewrite handle_bin_run';
         [ reflexivity
         | intros enc; apply utf8_printable; destruct enc; reflexivity ]
       | rewrite handle_text_run;
         [ reflexivity | apply utf8_printable; reflexivity ] ]).
Defined.
(** ** The semantic path and the rest of the run *)

Lemma same_but_entering_refl st : same_but_entering st st.
Proof. repeat split. Qed.

Lemma alike_ext (A : Type) (m1 m1' m2 m2' : M A) :
  (forall st, m1 st = m1' st) -> (forall st, m2 st = m2' st) ->
  alike m1' m2' -> alike m1 m2.
Proof. intros E1 E2 H st1 st2 Hs. rewrite E1, E2. apply H, Hs. Qed.

Lemma alike_ret (A : Type) (a : A) : alike (ret a) (ret a).
Proof. intros st1 st2 H. split; [exact H | reflexivity]. Qed.

Lemma alike_raise (A : Type) (e : exn) :
  alike (fun st => (st, @Raise A e)) (fun st => (st, @Raise A e)).
Proof. intros st1 st2 H. split; [exact H | reflexivity]. Qed.

Lemma alike_bind (A B : Type) (m1 m2 : M A) (k1 k2 : A -> M B) :
  alike m1 m2 -> (forall a, alike (k1 a) (k2 a)) ->
  alike (bind m1 k1) (bind m2 k2).
Proof.
  intros Hm Hk st1 st2 Hs. unfold bind.
  destruct (Hm st1 st2 Hs) as [Hs' Hr].
  destruct (m1 st1) as [s1 r1], (m2 st2) as [s2 r2]. simpl in *.
  subst r2. destruct r1 as [a|e].
  - apply Hk. exact Hs'.
  - split; [exact Hs' | reflexivity].
Qed.

Section Alike_lines.
Variable stdout_encodes : pystr -> bool.

Lemma alike_print tint msg1 msg2 :
  (forall i, forget (Line tint i msg1) = forget (Line tint i msg2)) ->
  (forall i, stdout_encodes (render_line (Line tint i msg1)) =
             stdout_encodes (render_line (Line tint i msg2))) ->
  alike (fun st => print stdout_encodes (Line tint (INDENT_LEVEL st) msg1) st)
        (fun st => print stdout_encodes (Line tint (INDENT_LEVEL st) msg2)
                         st).
Proof.
  intros H He st1 st2 (Hi & Hf & Ho & Ht & Hc). unfold print. cbv beta.
  rewrite Hi, He.
  destruct (stdout_encodes
              (render_line (Line tint (INDENT_LEVEL st2) msg2)));
    (split; [|reflexivity]); unfold same_but_entering; simpl.
  - rewrite !map_app, Ho. simpl. rewrite H. repeat split; assumption.
  - repeat split; assumption.
Qed.

Lemma alike_info msg1 msg2 :
  (forall i, forget (Line Plain i msg1) = forget (Line Plain i msg2)) ->
  (forall i, stdout_encodes (render_line (Line Plain i msg1)) =
             stdout_encodes (render_line (Line Plain i msg2))) ->
  alike (info stdout_encodes msg1) (info stdout_encodes msg2).
Proof.
  intros H He. unfold info. change (LOG_LEVEL <=? 1)%Z with true.
  cbv iota. apply alike_print; assumption.
Qed.

Lemma alike_warn msg :
  alike (warn stdout_encodes msg) (warn stdout_encodes msg).
Proof. unfold warn. apply alike_print; reflexivity. Qed.

Lemma alike_success msg :
  alike (success stdout_encodes msg) (success stdout_encodes msg).
Proof. unfold success. apply alike_print; reflexivity. Qed.

End Alike_lines.

Lemma alike_lib (A : Type) (c : call) (answer : outcome A) :
  alike (lib c answer) (lib c answer).
Proof.
  intros st1 st2 (Hi & Hf & Ho & Ht & Hc). split; [|reflexivity].
  unfold same_but_entering. simpl. rewrite Hc. repeat split; assumption.
Qed.

Lemma alike_found_paths_append p :
  alike (found_paths_append p) (found_paths_append p).
Proof.
  intros st1 st2 (Hi & Hf & Ho & Ht & Hc). split; [|reflexivity].
  unfold same_but_entering. simpl. rewrite Hf. repeat split; assumption.
Qed.

Lemma alike_indent_by k : alike (indent_by k) (indent_by k).
Proof.
  intros st1 st2 (Hi & Hf & Ho & Ht & Hc). split; [|reflexivity].
  unfold same_but_entering. simpl. rewrite Hi. repeat split; assumption.
Qed.

Lemma alike_with_TemporaryDirectory mkdtemp (A : Type)
      (body1 body2 : Path -> M A) :
  (forall tempdir, alike (body1 tempdir) (body2 tempdir)) ->
  alike (with_TemporaryDirectory mkdtemp body1)
        (with_TemporaryDirectory mkdtemp body2).
Proof.
  intros H st1 st2 (Hi & Hf & Ho & Ht & Hc).
  unfold with_TemporaryDirectory. rewrite Ht. apply H.
  unfold same_but_entering. simpl. repeat split; assumption.
Qed.

Lemma alike_for_each (A : Type) (body1 body2 : A -> M unit) (xs : list A) :
  Forall (fun x => alike (body1 x) (body2 x)) xs ->
  alike (for_each body1 xs) (for_each body2 xs).
Proof.
  induction 1 as [|x xs Hx _ IH]; simpl.
  - apply alike_ret.
  - apply alike_bind; [exact Hx | intros _; exact IH].
Qed.

Section Search_alike.
Variable stdout_encodes : pystr -> bool.
Variable encode : encoding -> pystr -> outcome bytes.
Variable mkdtemp : nat -> Path.
Variable string : pystr.

Section One_file.
Variables recurse1 recurse2 : Path -> Path -> pystr -> dir -> M unit.
Variable f : file.
Variables sp1 sp2 path : Path.
Hypothesis recurse_alike : forall tempdir tree,
  extractall f = Ok tree ->
  alike (recurse1 sp1 tempdir string tree) (recurse2 sp2 tempdir string tree).

Ltac unpack_alike fmt :=
  apply alike_bind; [apply alike_info; reflexivity | intros _];
  destruct (extractall f) as [tree|e] eqn:E;
  [ apply alike_ext
      with (m1' := with_TemporaryDirectory mkdtemp
                     (fun tempdir =>
                        lib (Extractall fmt path tempdir) (Ok tt) ;;
                        recurse1 sp1 tempdir string tree))
           (m2' := with_TemporaryDirectory mkdtemp
                     (fun tempdir =>
                        lib (Extractall fmt path tempdir) (Ok tt) ;;
                        recurse2 sp2 tempdir string tree));
    [ reflexivity | reflexivity
    | apply alike_with_TemporaryDirectory; intros ?;
      apply alike_bind; [apply alike_lib | intros _];
      apply recurse_alike; reflexivity ]
  | destruct e;
    first
      [ match type of E with
        | _ = Raise ?x =>
            apply alike_ext
              with (m1' := with_TemporaryDirectory mkdtemp
                             (fun tempdir =>
                                lib (Extractall fmt path tempdir)
                                    (@Raise unit x)))
                   (m2' := with_TemporaryDirectory mkdtemp
                             (fun tempdir =>
                                lib (Extractall fmt path tempdir)
                                    (@Raise unit x)))
        end;
        [ reflexivity | reflexivity
        | apply alike_with_TemporaryDirectory; intros ?; apply alike_lib ]
      | apply alike_ext
          with (m1' := with_TemporaryDirectory mkdtemp
                         (fun tempdir =>
                            lib (Extractall fmt path tempdir) (Ok tt) ;;
                            warn stdout_encodes
                                 (Failed_to_extract fmt path)))
               (m2' := with_TemporaryDirectory mkdtemp
                         (fun tempdir =>
                            lib (Extractall fmt path tempdir) (Ok tt) ;;
                            warn stdout_encodes
                                 (Failed_to_extract fmt path)));
        [ reflexivity | reflexivity
        | apply alike_with_TemporaryDirectory; intros ?;
          apply alike_bind; [apply alike_lib | intros _; apply alike_warn] ]
      ] ].

Lemma handle_tar_alike :
  alike (handle_tar stdout_encodes mkdtemp recurse1 sp1 path string f)
        (handle_tar stdout_encodes mkdtemp recurse2 sp2 path string f).
Proof. unfold handle_tar. unpack_alike Tar. Qed.

Lemma handle_zip_alike :
  alike (handle_zip stdout_encodes mkdtemp recurse1 sp1 path string f)
        (handle_zip stdout_encodes mkdtemp recurse2 sp2 path string f).
Proof. unfold handle_zip. unpack_alike Zip. Qed.

Lemma handle_7z_alike :
  alike (handle_7z stdout_encodes mkdtemp recurse1 sp1 path string f)
        (handle_7z stdout_encodes mkdtemp recurse2 sp2 path string f).
Proof. unfold handle_7z. unpack_alike SevenZip. Qed.

Lemma handle_rar_alike :
  alike (handle_rar stdout_encodes mkdtemp recurse1 sp1 path string f)
        (handle_rar stdout_encodes mkdtemp recurse2 sp2 path string f).
Proof. unfold handle_rar. unpack_alike Rar. Qed.

Lemma handle_bin_loop_alike data encodings :
  alike (handle_bin_loop stdout_encodes encode path string data encodings)
        (handle_bin_loop stdout_encodes encode path string data encodings).
Proof.
  induction encodings as [|enc rest IH]; simpl; [apply alike_ret|].
  apply alike_bind; [apply alike_lib | intros needle].
  destruct (bytes_in needle data); [|exact IH].
  apply alike_bind; [apply alike_success | intros _; apply alike_ret].
Qed.

Lemma handle_bin_alike :
  alike (handle_bin stdout_encodes encode sp1 path string f)
        (handle_bin stdout_encodes encode sp2 path string f).
Proof.
  unfold handle_bin. apply alike_bind; [apply alike_lib | intros data].
  apply handle_bin_loop_alike.
Qed.

Lemma handle_text_alike :
  alike (handle_text stdout_encodes sp1 path string f)
        (handle_text stdout_encodes sp2 path string f).
Proof.
  unfold handle_text. destruct (read_text f) as [data|e].
  - apply alike_ext
      with (m1' := lib (Open_r path) (Ok tt) ;;
                   if str_in string data
                   then success stdout_encodes (Found_in string path) ;;
                        ret true
                   else ret false)
           (m2' := lib (Open_r path) (Ok tt) ;;
                   if str_in string data
                   then success stdout_encodes (Found_in string path) ;;
                        ret true
                   else ret false);
      try (intros st; unfold bind, lib; destruct (str_in string data);
           reflexivity).
    apply alike_bind; [apply alike_lib | intros _].
    destruct (str_in string data); [|apply alike_ret].
    apply alike_bind; [apply alike_success | intros _; apply alike_ret].
  - destruct e;
      first
        [ apply alike_ext with (m1' := lib (Open_r path) (Ok false))
                               (m2' := lib (Open_r path) (Ok false));
          [ reflexivity | reflexivity | apply alike_lib ]
        | match goal with
          | |- context [ @Raise pystr ?x ] =>
              apply alike_ext
                with (m1' := lib (Open_r path) (@Raise bool x))
                     (m2' := lib (Open_r path) (@Raise bool x))
          end;
          [ reflexivity | reflexivity | apply alike_lib ] ].
Qed.

End One_file.

Lemma enter_alike_joinpath sp1 sp2 n :
  enter_alike stdout_encodes sp1 sp2 ->
  enter_alike stdout_encodes (sp1 // n) (sp2 // n).
Proof.
  intros H i rest. unfold joinpath. rewrite <- !app_assoc. apply H.
Qed.

Lemma enter_alike_here sp1 sp2 i :
  enter_alike stdout_encodes sp1 sp2 ->
  stdout_encodes (render_line (Line Plain i (Entering sp1))) =
  stdout_encodes (render_line (Line Plain i (Entering sp2))).
Proof. intros H. specialize (H i []). rewrite !app_nil_r in H. exact H. Qed.

Lemma search_file_alike recurse1 recurse2 f sp1 sp2 root :
  (forall tempdir tree,
     extractall f = Ok tree ->
     alike (recurse1 (sp1 // name f) tempdir string tree)
           (recurse2 (sp2 // name f) tempdir string tree)) ->
  alike (search_file stdout_encodes encode mkdtemp recurse1 sp1 root string f)
        (search_file stdout_encodes encode mkdtemp recurse2 sp2 root string
                     f).
Proof.
  intros Hrec. unfold search_file.
  apply alike_bind.
  { destruct (str_in string (str (root // name f))); [|apply alike_ret].
    apply alike_bind; [apply alike_success|].
    intros _. apply alike_found_paths_append. }
  intros _. apply alike_bind; [apply alike_indent_by | intros _].
  apply alike_bind; [|intros _; apply alike_indent_by].
  apply alike_bind; [apply alike_lib | intros t].
  destruct t; [apply handle_tar_alike; assumption|].
  apply alike_bind; [apply alike_lib | intros z].
  destruct z; [apply handle_zip_alike; assumption|].
  apply alike_bind; [apply alike_lib | intros s].
  destruct s; [apply handle_7z_alike; assumption|].
  apply alike_bind; [apply alike_lib | intros r].
  destruct r; [apply handle_rar_alike; assumption|].
  apply alike_bind; [apply handle_bin_alike | intros found].
  destruct found; simpl; [apply alike_ret|].
  apply alike_bind; [apply handle_text_alike | intros _; apply alike_ret].
Qed.

Lemma search_walk_alike tree : forall sp1 sp2 root,
  enter_alike stdout_encodes sp1 sp2 ->
  alike (search_walk stdout_encodes encode mkdtemp sp1 root string tree)
        (search_walk stdout_encodes encode mkdtemp sp2 root string tree).
Proof.
  induction tree as [fs ds IHfs IHds] using dir_tree_ind.
  intros sp1 sp2 root Hsp. simpl. apply alike_bind.
  - apply alike_for_each. rewrite Forall_forall in *. intros f Hf.
    apply alike_bind; [apply alike_lib | intros _].
    apply search_file_alike. intros tempdir tree E.
    pose proof (enter_alike_joinpath _ _ (name f) Hsp) as Hsp'.
    apply alike_bind.
    + apply alike_info; [reflexivity|]. intros i.
      apply enter_alike_here. exact Hsp'.
    + intros _. apply (IHfs f Hf tree E). exact Hsp'.
  - intros _. apply alike_for_each. rewrite Forall_forall in *.
    intros [n d] Hd. apply (IHds (n, d) Hd). exact Hsp.
Qed.

End Search_alike.

(** X12: the semantic path has no part in what a run finds or does: two
    calls of [search] that differ in the semantic path only, on a standard
    output that prints the "Entering" lines of the one exactly when it
    prints those of the other, end the same way and leave the same
    [found_paths], the same calls, scratch directories and indentation,
    and the same lines apart from the paths named in the "Entering"
    lines. *)
Theorem semantic_path_only_shows_in_Entering_lines
        stdout_encodes encode mkdtemp sp1 sp2 path string tree st :
  enter_alike stdout_encodes sp1 sp2 ->
  same_but_entering
    (fst (search stdout_encodes encode mkdtemp sp1 path string tree st))
    (fst (search stdout_encodes encode mkdtemp sp2 path string tree st)) /\
  snd (search stdout_encodes encode mkdtemp sp1 path string tree st) =
  snd (search stdout_encodes encode mkdtemp sp2 path string tree st).
Proof.
  intros Hsp.
  assert (H : alike (search stdout_encodes encode mkdtemp sp1 path string
                            tree)
                    (search stdout_encodes encode mkdtemp sp2 path string
                            tree)).
  { unfold search. apply alike_bind.
    - apply alike_info; [reflexivity|]. intros i.
      apply enter_alike_here. exact Hsp.
    - intros _. destruct tree as [d|]; [|apply alike_ret].
      apply search_walk_alike. exact Hsp. }
  apply H. apply same_but_entering_refl.
Qed.

Lemma utf8_join_segments (p : Path) :
  utf8_stdout (join_segments p) = forallb utf8_stdout p.
Proof.
  induction p as [|seg rest IH]; [reflexivity|].
  destruct rest as [|seg' rest'].
  - simpl. rewrite andb_true_r. reflexivity.
  - change (join_segments (seg :: seg' :: rest'))
      with (seg ++ slash :: join_segments (seg' :: rest')).
    rewrite utf8_stdout_app.
    change (utf8_stdout (slash :: join_segments (seg' :: rest')))
      with (utf8_stdout (join_segments (seg' :: rest'))).
    rewrite IH. reflexivity.
Qed.

(** Under a strict UTF-8 output, two one-segment semantic paths that can
    both be printed are printed alike all the way down. *)
Lemma utf8_enter_alike (c1 c2 : N) (seg1 seg2 : pystr) :
  utf8_stdout (c1 :: seg1) = true -> utf8_stdout (c2 :: seg2) = true ->
  enter_alike utf8_stdout [c1 :: seg1] [c2 :: seg2].
Proof.
  intros H1 H2 i rest. unfold render_line.
  simpl tint. simpl indent. simpl text. unfold render.
  rewrite !utf8_stdout_app. f_equal. f_equal. f_equal.
  change (utf8_stdout (join_segments ((c1 :: seg1) :: rest)) =
          utf8_stdout (join_segments ((c2 :: seg2) :: rest))).
  rewrite !utf8_join_segments.
  change (forallb utf8_stdout ((c1 :: seg1) :: rest))
    with (utf8_stdout (c1 :: seg1) && forallb utf8_stdout rest).
  change (forallb utf8_stdout ((c2 :: seg2) :: rest))
    with (utf8_stdout (c2 :: seg2) && forallb utf8_stdout rest).
  rewrite H1, H2. reflexivity.
Qed.

Lemma semantic_path_only_shows_in_Entering_lines_witness :
  snd (search utf8_stdout codec scratch root root (py "xyz42")
              (Some nested_tree) initial) =
  snd (search utf8_stdout codec scratch [py "elsewhere"] root (py "xyz42")
              (Some nested_tree) initial).
Proof.
  apply (semantic_path_only_shows_in_Entering_lines utf8_stdout codec
           scratch root [py "elsewhere"] root (py "xyz42")
           (Some nested_tree) initial).
  apply utf8_enter_alike; reflexivity.
Defined.
(** ** Leading parts of the path, and the paths collected *)

Lemma join_segments_below (q rest : Path) :
  q <> [] ->
  exists tail, join_segments (q ++ rest) = join_segments q ++ tail.
Proof.
  intros Hq.
  induction q as [|seg q IH]; [contradiction Hq; reflexivity|].
  destruct q as [|seg' q'].
  - simpl. destruct rest as [|r rest'].
    + exists []. rewrite app_nil_r. reflexivity.
    + eexists. reflexivity.
  - destruct IH as [tail Ht]; [discriminate|].
    change (join_segments ((seg :: seg' :: q') ++ rest))
      with (seg ++ slash :: join_segments ((seg' :: q') ++ rest)).
    change (join_segments (seg :: seg' :: q'))
      with (seg ++ slash :: join_segments (seg' :: q')).
    rewrite Ht. exists tail. rewrite <- app_assoc. reflexivity.
Qed.

(** The text of a path starts with the text of every path above it, the
    path with no segments (["."]) apart. *)
Lemma str_below (q p : Path) :
  below q p -> q <> [] -> exists tail, str p = str q ++ tail.
Proof.
  intros [rest ->] Hq.
  destruct q as [|[|c seg] [|seg' q']]; [contradiction Hq; reflexivity| | | |].
  - destruct rest as [|r rest']; [exists []; reflexivity|].
    eexists. reflexivity.
  - destruct (join_segments_below ([] :: seg' :: q') rest) as [tail Ht];
      [discriminate|].
    exists tail. etransitivity; [|exact Ht]. reflexivity.
  - destruct (join_segments_below [c :: seg] rest) as [tail Ht];
      [discriminate|].
    exists tail. etransitivity; [|exact Ht]. destruct rest; reflexivity.
  - destruct (join_segments_below ((c :: seg) :: seg' :: q') rest)
      as [tail Ht]; [discriminate|].
    exists tail. etransitivity; [|exact Ht]. reflexivity.
Qed.

Lemma Substring_in_leading_part (s : pystr) (q p : Path) :
  below q p -> q <> [] -> Substring s (str q) -> Substring s (str p).
Proof.
  intros Hb Hq Hs. destruct (str_below _ _ Hb Hq) as [tail Ht].
  destruct Hs as (l & r & E). exists l, (r ++ tail).
  rewrite Ht, E, <- !app_assoc. reflexivity.
Qed.

(** X13: the name test sees the whole real path: a file is matched as
    soon as the search string occurs in a leading part of its path, the
    directory that was given to search or a scratch directory for one;
    in every run, each file come to under a path [q] whose text has the
    string, and with a match that the standard output can print, is among
    the filename matches.  The path with no segments is left out: its
    text, ["."], is no part of the text of the paths below it. *)
Theorem string_in_leading_path_matches_every_file
        stdout_encodes encode mkdtemp string sp path tree st :
  exists out cl,
    stdout (fst (search stdout_encodes encode mkdtemp sp path string tree
                        st)) =
      stdout st ++ out /\
    calls (fst (search stdout_encodes encode mkdtemp sp path string tree
                       st)) =
      calls st ++ cl /\
    forall p q,
      In p (came_to cl) -> below q p -> q <> [] ->
      Substring string (str q) ->
      printable stdout_encodes (Found_in_filename string p) ->
      In p (filename_matches out).
Proof.
  destruct (matched_when_printable _ _ _ _ _
              (search_matched stdout_encodes string encode mkdtemp sp path
                              tree st))
    as (out & cl & Ho & Hc & H).
  exists out, cl. split; [exact Ho|]. split; [exact Hc|].
  intros p q Hin Hb Hq Hs Hprint. apply H; [exact Hin | | exact Hprint].
  apply str_in_spec. eapply Substring_in_leading_part; eassumption.
Qed.

(** X14: every path a run appends to [found_paths] has the search string
    in it. *)
Theorem found_paths_contain_the_string
        stdout_encodes encode mkdtemp string sp path tree st :
  exists fp,
    found_paths (fst (search stdout_encodes encode mkdtemp sp path string
                             tree st)) =
      found_paths st ++ fp /\
    Forall (Substring string) fp.
Proof.
  destruct (search_coherent stdout_encodes encode mkdtemp string sp path tree
                            st)
    as (out & fp & cl & (_ & Hf & _) & (-> & Hm & _)).
  eexists. split; [exact Hf|].
  rewrite Hm. apply Forall_forall. intros s Hs.
  apply in_map_iff in Hs. destruct Hs as (p & <- & Hp).
  apply filter_In in Hp. apply str_in_spec, Hp.
Qed.

(** ** Archives that unpack *)

(** X15: a file sent to the handler of [fmt] whose extraction succeeds,
    and about which the standard output can print every line, is searched
    as a directory and nothing else: after the "Extracting" line and the
    extraction into the next scratch directory, the handling of the file
    is the call of [search] on the unpacked tree, with the name of the
    archive added to the semantic path and the scratch directory as the
    directory searched, one level in; what that call returns is what the
    handling of the file returns, and the bytes and the text of the
    archive itself are never read. *)
Theorem unpacked_archive_is_searched_as_a_directory
        stdout_encodes encode mkdtemp sp root string f st fmt tree :
  speakable stdout_encodes string (root // name f) ->
  routed_to fmt f -> extractall f = Ok tree ->
  let p := root // name f in
  let tempdir := mkdtemp (tempdirs st) in
  let run :=
    search_file stdout_encodes encode mkdtemp
      (fun sp' t s d => search stdout_encodes encode mkdtemp sp' t s (Some d))
      sp root string f st in
  let inner :=
    search stdout_encodes encode mkdtemp (sp // name f) tempdir string
      (Some tree)
      (State (INDENT_LEVEL st + 1)
             (found_paths st ++ name_paths string p)
             (stdout st ++ name_lines string (INDENT_LEVEL st) p ++
              [Line Plain (INDENT_LEVEL st + 1) (Extracting fmt p)])
             (S (tempdirs st))
             (calls st ++ probes_through fmt p ++
              [Extractall fmt p tempdir])) in
  snd run = snd inner /\
  stdout (fst run) = stdout (fst inner) /\
  calls (fst run) = calls (fst inner) /\
  found_paths (fst run) = found_paths (fst inner) /\
  tempdirs (fst run) = tempdirs (fst inner).
Proof.
  intros Hsay Hr He p tempdir run inner. subst run.
  pose proof (speakable_name _ _ _ Hsay) as Hname.
  pose proof (speakable_extracting _ _ _ Hsay) as Hextr.
  fold p in Hname, Hextr.
  destruct (search_file stdout_encodes encode mkdtemp _ sp root string f st)
    as [st' res] eqn:Erun.
  unfold search_file in Erun. fold p in Erun.
  assert (Hinner :
            inner =
            search stdout_encodes encode mkdtemp (sp // name f) tempdir
              string (Some tree)
              (State (INDENT_LEVEL st + 1)
                     (found_paths st ++ name_paths string p)
                     (stdout st ++ name_lines string (INDENT_LEVEL st) p ++
                      [Line Plain (INDENT_LEVEL st + 1) (Extracting fmt p)])
                     (S (tempdirs st))
                     (calls st ++ probes_through fmt p ++
                      [Extractall fmt p tempdir]))) by reflexivity.
  clearbody inner.
  destruct fmt; simpl in Hr;
    repeat match type of Hr with
           | _ /\ _ =>
               let H := fresh "Hp" in
               destruct Hr as [H Hr]; rewrite H in Erun
           end;
    rewrite Hr in Erun;
    unfold name_lines, name_paths in Hinner;
    (destruct (str_in string (str p));
     cbv beta iota
         delta [handle_tar handle_zip handle_7z handle_rar
                with_TemporaryDirectory bind info success print
                found_paths_append indent_by lib ret LOG_LEVEL Z.leb
                Z.compare Pos.compare Pos.compare_cont
                INDENT_LEVEL found_paths stdout tempdirs calls]
       in Erun;
     rewrite He in Erun;
     do 2 (cbv beta iota
               delta [INDENT_LEVEL found_paths stdout tempdirs calls]
             in Erun;
           rewrite ?(Hname GREEN), ?(Hextr _ Plain) in Erun);
     cbv beta iota
         delta [INDENT_LEVEL found_paths stdout tempdirs calls] in Erun;
     fold (INDENT_LEVEL st) (found_paths st) (stdout st) (tempdirs st)
          (calls st) in Erun;
     fold tempdir in Erun;
     simpl in Hinner; rewrite <- ?app_assoc in Hinner; simpl in Hinner;
     rewrite ?app_nil_r in Hinner;
     rewrite <- ?app_assoc in Erun; simpl app in Erun;
     rewrite <- Hinner in Erun;
     destruct inner as [st2 [[]|e]];
     injection Erun as <- <-; repeat split).
Qed.

Lemma unpacked_archive_is_searched_as_a_directory_witness :
  snd (search_file utf8_stdout codec scratch
         (fun sp' t s d => search utf8_stdout codec scratch sp' t s (Some d))
         root root (py "secret") secret_zip initial) =
  snd (search utf8_stdout codec scratch (root // name secret_zip) (scratch 0)
         (py "secret") (Some (Dir [a_txt] []))
         (State 1 [str (root // name secret_zip)]
                [Line GREEN 0
                      (Found_in_filename (py "secret")
                                         (root // name secret_zip));
                 Line Plain 1 (Extracting Zip (root // name secret_zip))]
                1
                [Probe Tar (root // name secret_zip);
                 Probe Zip (root // name secret_zip);
                 Extractall Zip (root // name secret_zip) (scratch 0)])).
Proof.
  apply (unpacked_archive_is_searched_as_a_directory utf8_stdout codec
           scratch root root (py "secret") secret_zip initial Zip
           (Dir [a_txt] [])).
  - apply utf8_speakable. reflexivity.
  - simpl. split; reflexivity.
  - reflexivity.
Defined.

(** ** Lines that the standard output cannot encode *)

(** X16: [success] has no handler around [print]: when the name of a file
    has the search string in it and the standard output cannot encode the
    line of the match, the handling of the file raises
    [UnicodeEncodeError] at once: nothing is printed, nothing is appended
    to [found_paths], and the file is neither probed nor read. *)
Theorem unprintable_match_raises
        stdout_encodes encode mkdtemp recurse sp root string f st :
  str_in string (str (root // name f)) = true ->
  stdout_encodes
    (render_line (Line GREEN (INDENT_LEVEL st)
                       (Found_in_filename string (root // name f)))) =
    false ->
  search_file stdout_encodes encode mkdtemp recurse sp root string f st =
    (st, Raise UnicodeEncodeError).
Proof.
  intros Hhit Henc. unfold search_file. rewrite Hhit.
  unfold bind at 1. unfold bind at 1. unfold success at 1. unfold print.
  rewrite Henc. reflexivity.
Qed.

Lemma unprintable_match_raises_witness :
  search_file utf8_stdout codec scratch
    (fun sp tempdir s d =>
       search utf8_stdout codec scratch sp tempdir s (Some d))
    root root (py ".txt") odd_txt initial =
  (initial, Raise UnicodeEncodeError).
Proof.
  apply (unprintable_match_raises utf8_stdout codec scratch
           (fun sp tempdir s d =>
              search utf8_stdout codec scratch sp tempdir s (Some d))
           root root (py ".txt") odd_txt initial);
    reflexivity.
Defined.

(** X17: a run on [z.txt] and a file whose name has a lone surrogate, for
    the string ".txt" and under a strict UTF-8 output: the first file
    gets its filename match, the second is come to and has the string in
    its name, but its match cannot be printed; the run ends there with
    status 1, with one match printed and one path collected. *)
Theorem surrogate_name_ends_the_run :
  let run := main utf8_stdout codec scratch
                  (fun _ => Some (Dir [z_txt; odd_txt] []))
                  (py ".txt") root in
  snd run = 1%Z /\
  came_to (calls (fst run)) = [root // name z_txt; root // name odd_txt] /\
  filter (fun p => str_in (py ".txt") (str p)) (came_to (calls (fst run))) =
    [root // name z_txt; root // name odd_txt] /\
  filename_matches (stdout (fst run)) = [root // name z_txt] /\
  found_paths (fst run) = [str (root // name z_txt)] /\
  encountered (calls (fst run)) = [root // name z_txt].
Proof. vm_compute. repeat split. Qed.
